(** * Agentic honeypot: the engagement state machine

    A shallow embedding of the decision logic of the honeypot service
    (app/core/scam_detector.py, app/core/extractor.py, app/core/agent.py,
    app/services/guvi_callback.py and app/api/routes.py) and the
    properties of its specification.

    Modelling conventions.
    - Text is a [string] of ASCII characters.  [str.lower], [str.strip] and
      the classes [\w], [\d], [\s] of the [re] module are modelled on ASCII
      characters; on them [re.IGNORECASE] adds nothing to the one pattern
      that uses it, whose classes already list both cases.
    - A history entry is a well-formed message dictionary: the keys
      [sender], [text] and [timestamp] are present, as the request schema
      describes them.
    - [list(set(xs))] has no specified order in Python.  It is modelled by
      the elements of a finite set; statements are about membership only.
    - [datetime.now()] is an input of the request handler. *)

From Stdlib Require Import ZArith Ascii String List Bool Lia.
From stdpp Require Import base option list gmap strings fin_maps fin_sets.

Open Scope Z_scope.
Open Scope string_scope.
Open Scope list_scope.

(** ** Characters and strings *)

Module Text.

Definition code (c : ascii) : nat := nat_of_ascii c.

Definition between (lo hi : nat) (c : ascii) : bool :=
  (Nat.leb lo (code c)) && (Nat.leb (code c) hi).

Definition is_upper (c : ascii) : bool := between 65 90 c.
Definition is_lower (c : ascii) : bool := between 97 122 c.
Definition is_alpha (c : ascii) : bool := is_upper c || is_lower c.
Definition is_digit (c : ascii) : bool := between 48 57 c.

(** [\w] *)
Definition is_word (c : ascii) : bool :=
  is_alpha c || is_digit c || Nat.eqb (code c) 95.

(** [\s], also the characters removed by [str.strip()]:
    TAB LF VT FF CR, FS GS RS US, and the space. *)
Definition is_space (c : ascii) : bool :=
  between 9 13 c || between 28 31 c || Nat.eqb (code c) 32.

Definition is_char (x : ascii) (c : ascii) : bool := Ascii.eqb x c.

Definition lower_char (c : ascii) : ascii :=
  if is_upper c then ascii_of_nat (code c + 32) else c.

(** [s.lower()] *)
Fixpoint lower (s : string) : string :=
  match s with
  | EmptyString => EmptyString
  | String c t => String (lower_char c) (lower t)
  end.

Fixpoint lstrip (s : string) : string :=
  match s with
  | EmptyString => EmptyString
  | String c t => if is_space c then lstrip t else s
  end.

Fixpoint rstrip (s : string) : string :=
  match s with
  | EmptyString => EmptyString
  | String c t =>
      match rstrip t with
      | EmptyString => if is_space c then EmptyString else String c EmptyString
      | t' => String c t'
      end
  end.

(** [s.strip()] *)
Definition strip (s : string) : string := rstrip (lstrip s).

(** [w in s] on strings: [w] occurs in [s] as a substring. *)
Fixpoint contains (w s : string) : bool :=
  String.prefix w s ||
  match s with
  | EmptyString => false
  | String _ t => contains w t
  end.

(** [any(w in s for w in ws)] *)
Definition any_in (ws : list string) (s : string) : bool :=
  existsb (fun w => contains w s) ws.

(** [sum(1 for w in ws if w in s)] *)
Definition count_in (ws : list string) (s : string) : Z :=
  Z.of_nat (length (List.filter (fun w => contains w s) ws)).

Fixpoint all_digits (s : string) : bool :=
  match s with
  | EmptyString => true
  | String c t => is_digit c && all_digits t
  end.

Definition digit_val (c : ascii) : Z := Z.of_nat (code c - 48).

(** [int(s)] for a string of decimal digits. *)
Definition int_of_digits (s : string) : Z :=
  fold_left (fun acc c => 10 * acc + digit_val c) (list_ascii_of_string s) 0.

(** [s[:n]] *)
Fixpoint take (n : nat) (s : string) : string :=
  match n, s with
  | S m, String c t => String c (take m t)
  | _, _ => EmptyString
  end.

End Text.

(** ** Regular expressions with the backtracking semantics of [re] *)

Module Regex.
Import Text.

(** The fragment of the pattern language the program uses. *)
Inductive regex : Type :=
| Eps                                           (* the empty pattern *)
| Class (p : ascii -> bool)                     (* one character of a class *)
| WordB                                         (* [\b] *)
| Seq (r1 r2 : regex)                           (* r1 r2 *)
| Alt (r1 r2 : regex)                           (* r1 | r2, left first *)
| Rep (r : regex) (lo : nat) (hi : option nat). (* greedy r{lo,hi} *)

(** A position in the subject: the character before it, the text after
    it, and how many characters the current attempt has consumed. *)
Record cursor : Type := Cursor {
  before : option ascii;
  rest : string;
  eaten : nat
}.

Definition word_opt (o : option ascii) : bool :=
  match o with Some c => is_word c | None => false end.

Definition head_char (s : string) : option ascii :=
  match s with String c _ => Some c | EmptyString => None end.

(** [\b] holds where exactly one side is a word character. *)
Definition at_boundary (c : cursor) : bool :=
  xorb (word_opt (before c)) (word_opt (head_char (rest c))).

Definition orelse {A} (x : option A) (y : option A) : option A :=
  match x with Some _ => x | None => y end.

(** The greedy loop of a quantifier: try one more iteration of [body]
    first, fall back to the continuation once [need] iterations are done.
    [budget] bounds the iterations that remain. *)
Fixpoint loop (body : (cursor -> option cursor) -> cursor -> option cursor)
  (k : cursor -> option cursor) (budget need : nat) (c : cursor)
  : option cursor :=
  let stop := match need with O => k c | S _ => None end in
  match budget with
  | O => stop
  | S b => orelse (body (loop body k b (Nat.pred need)) c) stop
  end.

(** The backtracking matcher, in continuation-passing style.  The budget
    of a quantifier is its upper bound, or the length of the remaining
    text for an open one (every iteration of the program's patterns
    consumes a character). *)
Fixpoint run (r : regex) (k : cursor -> option cursor) (c : cursor)
  : option cursor :=
  match r with
  | Eps => k c
  | Class p =>
      match rest c with
      | String x t =>
          if p x then k (Cursor (Some x) t (S (eaten c))) else None
      | EmptyString => None
      end
  | WordB => if at_boundary c then k c else None
  | Seq r1 r2 => run r1 (fun c1 => run r2 k c1) c
  | Alt r1 r2 => orelse (run r1 k c) (run r2 k c)
  | Rep r1 lo hi =>
      loop (run r1) k
        (match hi with Some h => h | None => String.length (rest c) end)
        lo c
  end.

(** [pattern.match] at a position: the number of characters matched. *)
Definition match_at (r : regex) (prev : option ascii) (s : string)
  : option nat :=
  match run r Some (Cursor prev s 0) with
  | Some c => Some (eaten c)
  | None => None
  end.

Fixpoint last_char (prev : option ascii) (s : string) : option ascii :=
  match s with
  | EmptyString => prev
  | String c t => last_char (Some c) t
  end.

Fixpoint drop (n : nat) (s : string) : string :=
  match n, s with
  | S m, String _ t => drop m t
  | _, _ => s
  end.

(** [re.findall]: scan left to right; after a match resume at its end.
    No pattern of the program matches the empty string; for an empty
    match the scan records it and moves one character on.  [fuel] bounds
    the scan, [String.length s + 1] positions are enough. *)
Fixpoint findall_from (fuel : nat) (r : regex) (prev : option ascii)
  (s : string) : list string :=
  match fuel with
  | O => []
  | S f =>
      match match_at r prev s with
      | Some (S n) =>
          take (S n) s ::
          findall_from f r (last_char prev (take (S n) s)) (drop (S n) s)
      | Some O =>
          EmptyString ::
          match s with
          | String c t => findall_from f r (Some c) t
          | EmptyString => []
          end
      | None =>
          match s with
          | String c t => findall_from f r (Some c) t
          | EmptyString => []
          end
      end
  end.

Definition findall (r : regex) (s : string) : list string :=
  findall_from (S (String.length s)) r None s.

(** [re.search(...)] used as a truth value. *)
Definition search (r : regex) (s : string) : bool :=
  (fix go (prev : option ascii) (s0 : string) : bool :=
     match match_at r prev s0 with
     | Some _ => true
     | None =>
         match s0 with
         | String c t => go (Some c) t
         | EmptyString => false
         end
     end) None s.

(** Pattern combinators in the notation of the source. *)
Definition lit (x : ascii) : regex := Class (is_char x).

Fixpoint lits (s : string) : regex :=
  match s with
  | EmptyString => Eps
  | String c EmptyString => lit c
  | String c t => Seq (lit c) (lits t)
  end.

Definition opt (r : regex) : regex := Rep r 0 (Some 1%nat).
Definition star (r : regex) : regex := Rep r 0 None.
Definition plus (r : regex) : regex := Rep r 1 None.
Definition at_least (n : nat) (r : regex) : regex := Rep r n None.
Definition from_to (lo hi : nat) (r : regex) : regex := Rep r lo (Some hi).

Fixpoint seqs (rs : list regex) : regex :=
  match rs with
  | [] => Eps
  | [r] => r
  | r :: rs' => Seq r (seqs rs')
  end.

Definition one_of (s : string) (c : ascii) : bool :=
  existsb (fun x => Ascii.eqb x c) (list_ascii_of_string s).

Definition either (p q : ascii -> bool) (c : ascii) : bool := p c || q c.
Definition non (p : ascii -> bool) (c : ascii) : bool := negb (p c).

End Regex.

(** ** Results of fallible code *)

Inductive exn : Type :=
| IndexError
| CallbackException (reason : string).

Inductive result (A : Type) : Type :=
| Ok (a : A)
| Raise (e : exn).
Arguments Ok {A} a.
Arguments Raise {A} e.

(** A message dictionary [{"sender": .., "text": .., "timestamp": ..}]. *)
Record Message : Type := Msg {
  sender : string;
  text : string;
  timestamp : Z
}.

(** [l[-n:]] *)
Definition last_n {A} (n : nat) (l : list A) : list A :=
  skipn (length l - n) l.

(** [x in l] for a list of strings. *)
Definition mem (x : string) (l : list string) : bool :=
  existsb (String.eqb x) l.

(** ** app/core/scam_detector.py *)

Module ScamDetector.
Import Text Regex.

Definition FINANCIAL_KEYWORDS : list string :=
  ["bank"; "account"; "upi"; "payment"; "transaction"; "wallet"; "credit";
   "debit"].
Definition ACTION_KEYWORDS : list string :=
  ["send"; "verify"; "click"; "update"; "confirm"; "share"; "provide";
   "enter"].
Definition SENSITIVE_KEYWORDS : list string :=
  ["otp"; "pin"; "password"; "cvv"; "secret"; "code"].
Definition URGENCY_KEYWORDS : list string :=
  ["urgent"; "immediately"; "now"; "asap"; "quickly"; "today"; "blocked";
   "suspended"; "freeze"].
Definition THREAT_KEYWORDS : list string :=
  ["block"; "suspend"; "freeze"; "cancel"; "close"; "locked";
   "unauthorized"].
Definition ACTION_REQUEST_KEYWORDS : list string :=
  ["click"; "download"; "install"; "update"; "renew"].

Definition is_alnum (c : ascii) : bool := is_alpha c || is_digit c.

(** [https?://[^\s]+] *)
Definition URL_REGEX : regex :=
  seqs [lits "http"; opt (lit "s"); lits "://"; plus (Class (non is_space))].

(** [(@[a-zA-Z0-9-]+\.[a-zA-Z]{2,})] *)
Definition SUSPICIOUS_DOMAIN_REGEX : regex :=
  seqs [lit "@"; plus (Class (either is_alnum (one_of "-"))); lit ".";
        at_least 2 (Class is_alpha)].

Definition HESITATION : list string :=
  ["worried"; "doubt"; "safe"; "hesitate"; "not sure"].

(** The detection threshold, the literal of the verdict. *)
Definition THRESHOLD : Z := 4.

(** One family of keywords: [if n > 0: score += n * weight;
    reasons.append(tag)]. *)
Definition family (n weight : Z) (tag : string) (st : Z * list string)
  : Z * list string :=
  if (0 <? n)%Z then (fst st + n * weight, snd st ++ [tag]) else st.

(** [if conversation_history:] and its loop over
    [conversation_history[-3:]]. *)
Definition escalation (msg : string) (conversation_history : list Message)
  (st : Z * list string) : Z * list string :=
  match conversation_history with
  | [] => st
  | _ =>
  fold_left
    (fun acc msg_obj =>
       if String.eqb (sender msg_obj) "user"
          && any_in HESITATION (lower (text msg_obj))
       then
         if any_in (URGENCY_KEYWORDS ++ THREAT_KEYWORDS) msg
         then (fst acc + 2, snd acc ++ ["escalation despite user hesitation"])
         else acc
       else acc)
    (last_n 3 conversation_history) st
  end.

(** [detect_scam]: the score with its reasons; returns
    [(is_scam, reasons, score)]. *)
Definition detect_scam (message : string)
  (conversation_history : list Message) : bool * list string * Z :=
  let msg := lower message in
  let st : Z * list string := (0, []) in
  let financial_matches := count_in FINANCIAL_KEYWORDS msg in
  let st := family financial_matches 1 "financial context" st in
  let action_matches := count_in ACTION_KEYWORDS msg in
  let st := family action_matches 1 "action requested" st in
  let sensitive_matches := count_in SENSITIVE_KEYWORDS msg in
  let st := family sensitive_matches 3 "sensitive info request" st in
  let urgency_matches := count_in URGENCY_KEYWORDS msg in
  let threat_matches := count_in THREAT_KEYWORDS msg in
  let st := family urgency_matches 2 "urgency/threat tactics" st in
  let st :=
    if (0 <? threat_matches)%Z then
      (fst st + threat_matches * 2,
       if negb (mem "urgency/threat tactics" (snd st))
       then snd st ++ ["threat language"] else snd st)
    else st in
  let st :=
    if search URL_REGEX msg
    then (fst st + 3, snd st ++ ["external link detected"]) else st in
  let st :=
    if search SUSPICIOUS_DOMAIN_REGEX msg
    then (fst st + 2, snd st ++ ["suspicious domain"]) else st in
  let action_request_matches := count_in ACTION_REQUEST_KEYWORDS msg in
  let st := family action_request_matches 2 "malicious action request" st in
  let has_financial := any_in FINANCIAL_KEYWORDS msg in
  let has_action := any_in ACTION_KEYWORDS msg in
  let has_urgency := any_in URGENCY_KEYWORDS msg in
  let st :=
    if has_financial && has_action && has_urgency
    then (fst st + 5, snd st ++ ["classic scam pattern detected"]) else st in
  let st := escalation msg conversation_history st in
  ((THRESHOLD <=? fst st)%Z, snd st, fst st).

(** [get_scam_details(message)["types"]] *)
Definition get_scam_details (message : string) : list string :=
  let msg := lower message in
  let scam_type :=
    (if any_in ["otp"; "password"; "pin"; "cvv"] msg
     then ["credential theft"] else []) ++
    (if any_in ["click"; "download"; "link"] msg
     then ["malware distribution"] else []) ++
    (if any_in ["bank"; "account"; "upi"; "payment"] msg
     then ["financial fraud"] else []) ++
    (if any_in ["verify"; "confirm"; "update"] msg
     then ["phishing"] else []) in
  match scam_type with
  | [] => ["unknown scam"]
  | _ => scam_type
  end.

End ScamDetector.

(** ** app/core/extractor.py *)

Module Extractor.
Import Text Regex.

Definition is_alnum (c : ascii) : bool := is_alpha c || is_digit c.

(** [\b[\w.\-]{2,}@[a-zA-Z]{2,}\b] *)
Definition UPI_REGEX : regex :=
  seqs [WordB; at_least 2 (Class (either is_word (one_of ".-"))); lit "@";
        at_least 2 (Class is_alpha); WordB].

(** [https?://[^\s]+] *)
Definition URL_REGEX : regex :=
  seqs [lits "http"; opt (lit "s"); lits "://"; plus (Class (non is_space))].

(** [(?:\+91|91|0)?\s*[6-9]\d{9}] *)
Definition PHONE_REGEX : regex :=
  seqs [opt (Alt (lits "+91") (Alt (lits "91") (lit "0")));
        star (Class is_space); Class (between 54 57);
        from_to 9 9 (Class is_digit)].

(** [\b\d{9,18}\b] *)
Definition BANK_ACCOUNT_REGEX : regex :=
  seqs [WordB; from_to 9 18 (Class is_digit); WordB].

(** [\b[A-Za-z0-9._%+-]+@[A-Za-z0-9.-]+\.[A-Z|a-z]{2,}\b] *)
Definition EMAIL_REGEX : regex :=
  seqs [WordB; plus (Class (either is_alnum (one_of "._%+-"))); lit "@";
        plus (Class (either is_alnum (one_of ".-"))); lit ".";
        at_least 2 (Class (either is_alpha (one_of "|"))); WordB].

(** [\b[13][a-km-zA-HJ-NP-Z1-9]{25,34}\b] *)
Definition base58ish (c : ascii) : bool :=
  between 97 107 c || between 109 122 c || between 65 72 c ||
  between 74 78 c || between 80 90 c || between 49 57 c.

Definition BITCOIN_REGEX : regex :=
  seqs [WordB; Class (one_of "13"); from_to 25 34 (Class base58ish); WordB].

(** [\b(?:\d{1,3}\.){3}\d{1,3}\b] *)
Definition IP_ADDRESS_REGEX : regex :=
  seqs [WordB; from_to 3 3 (Seq (from_to 1 3 (Class is_digit)) (lit "."));
        from_to 1 3 (Class is_digit); WordB].

Definition SUSPICIOUS_KEYWORDS : list string :=
  ["urgent"; "verify"; "blocked"; "suspended"; "freeze"; "confirm";
   "immediate"; "claim"; "update"; "click"; "download"; "authenticate";
   "password"; "otp"; "pin"; "cvv"; "secret"; "validate"; "activate";
   "renew"; "expire"; "unauthorized"; "secure"; "protect"; "danger";
   "limited"; "today"; "now"; "asap"; "hurry"; "quickly"; "immediately"].

Definition TRUSTED_DOMAINS : list string :=
  ["@gmail.com"; "@yahoo.com"; "@outlook.com"].

Definition nonempty (s : string) : bool :=
  match s with EmptyString => false | _ => true end.

(** [list(set(xs))]: the distinct elements, in an order of the set's own. *)
Definition list_of_set (xs : list string) : list string :=
  elements (list_to_set xs : gset string).

(** [intel[key].extend(xs)] *)
Definition extend (key : string) (xs : list string)
  (intel : gmap string (list string)) : gmap string (list string) :=
  alter (fun l => l ++ xs) key intel.

Definition clean_values (values : list string) : list string :=
  let unique_values :=
    list_of_set (map (fun v => strip (lower v)) (List.filter nonempty values)) in
  List.filter nonempty unique_values.

Definition clean_intelligence (intel_dict : gmap string (list string))
  : gmap string (list string) :=
  clean_values <$> intel_dict.

(** [int(number_str)]; [None] is the [ValueError] branch.  The strings
    the account pattern yields are runs of decimal digits. *)
Definition parse_int (s : string) : option Z :=
  if nonempty s && all_digits s then Some (int_of_digits s) else None.

Definition is_likely_timestamp (number_str : string) : bool :=
  if Nat.ltb 13 (String.length number_str) then false
  else
    match parse_int number_str with
    | Some num => (1000000000 <? num)%Z
    | None => false
    end.

Definition empty_intelligence : gmap string (list string) :=
  list_to_map
    [("bankAccounts", []); ("upiIds", []); ("phishingLinks", []);
     ("phoneNumbers", []); ("suspiciousKeywords", []);
     ("emailAddresses", []); ("bitcoinAddresses", []); ("ipAddresses", [])].

Definition valid_account (acc : string) : bool :=
  Nat.leb 9 (String.length acc) && Nat.leb (String.length acc) 18
  && negb (is_likely_timestamp acc).

Definition suspicious_email (text : string) (e : string) : bool :=
  negb (existsb (fun domain => contains domain (lower e)) TRUSTED_DOMAINS)
  || existsb (fun keyword => contains keyword (lower text)) SUSPICIOUS_KEYWORDS.

(** The body of the loop over [full_conversation]. *)
Definition extract_context (intelligence : gmap string (list string))
  (msg : Message) : gmap string (list string) :=
  let msg_text := text msg in
  let intelligence := extend "upiIds" (findall UPI_REGEX msg_text) intelligence in
  let intelligence :=
    extend "phishingLinks" (findall URL_REGEX msg_text) intelligence in
  let intelligence :=
    extend "phoneNumbers" (findall PHONE_REGEX msg_text) intelligence in
  extend "emailAddresses" (findall EMAIL_REGEX msg_text) intelligence.

(** [extract_intelligence(text, full_conversation)].  On strings no step
    of the body raises, so the handler of the [try] is not reached. *)
Definition extract_intelligence (text : string)
  (full_conversation : list Message) : gmap string (list string) :=
  let intelligence := empty_intelligence in
  let upi_matches := findall UPI_REGEX text in
  let intelligence := extend "upiIds" upi_matches intelligence in
  let link_matches := findall URL_REGEX text in
  let intelligence := extend "phishingLinks" link_matches intelligence in
  let phone_matches := findall PHONE_REGEX text in
  let intelligence := extend "phoneNumbers" phone_matches intelligence in
  let account_matches := findall BANK_ACCOUNT_REGEX text in
  let valid_accounts := List.filter valid_account account_matches in
  let intelligence := extend "bankAccounts" valid_accounts intelligence in
  let email_matches := findall EMAIL_REGEX text in
  let suspicious_emails := List.filter (suspicious_email text) email_matches in
  let intelligence := extend "emailAddresses" suspicious_emails intelligence in
  let bitcoin_matches := findall BITCOIN_REGEX text in
  let intelligence := extend "bitcoinAddresses" bitcoin_matches intelligence in
  let ip_matches := findall IP_ADDRESS_REGEX text in
  let intelligence := extend "ipAddresses" ip_matches intelligence in
  let text_lower := lower text in
  let found_keywords :=
    List.filter (fun kw => contains kw text_lower) SUSPICIOUS_KEYWORDS in
  let intelligence := extend "suspiciousKeywords" found_keywords intelligence in
  let intelligence := fold_left extract_context full_conversation intelligence in
  clean_intelligence intelligence.

(** [intel.get(key, [])] *)
Definition get (key : string) (intel : gmap string (list string))
  : list string :=
  default [] (intel !! key).

End Extractor.

(** ** app/core/agent.py *)

Module Agent.
Import Text.

(** The template bank, in declaration order. *)
Definition RESPONSE_TEMPLATES : list (string * list string) :=
  [("upi",
    ["I'm not sure what UPI is, can you explain?";
     "Is it safe to share my UPI ID? I'm worried about security.";
     "Can you tell me why you need my UPI ID?"]);
   ("otp",
    ["Is it safe to share OTP? What will you use it for?";
     "Why do you need my OTP? I've heard it's dangerous.";
     "Can someone misuse my OTP if I share it?"]);
   ("password",
    ["Should I really share my password? That sounds risky.";
     "Why do you need access to my account password?";
     "I don't think it's safe to share passwords. Right?"]);
   ("cvv",
    ["You're asking for my CVV? That's the security code, right?";
     "Is it safe to share CVV over message? I'm concerned.";
     "Why would you need my CVV to verify my account?"]);
   ("link",
    ["Can you explain what this link is for?";
     "Is this link safe to click? Where does it take me?";
     "Why should I click on this? What happens next?"]);
   ("download",
    ["Is it safe to download that? What does it do?";
     "Why do I need to download an app to verify my account?";
     "Can you explain what this download is for?"]);
   ("verify",
    ["How will the verification process work?";
     "What happens after I verify? Is my account safe?";
     "Can you explain this verification process?"]);
   ("account_blocked",
    ["Why is my account blocked? What did I do?";
     "When will my account be unblocked? How long does it take?";
     "Is there another way to resolve this without verification?"]);
   ("urgent",
    ["Why is this so urgent? What happens if I don't act now?";
     "How much time do I have to respond?";
     "Is this really an emergency? Can it wait?"]);
   ("default",
    ["Can you explain that more clearly?";
     "I didn't understand. Can you rephrase?";
     "What exactly are you asking me to do?";
     "Can you provide more details?";
     "I'm confused about this. Help me understand."])].

(** [d.get(key)] on a dictionary kept in insertion order. *)
Fixpoint lookup_key {A} (key : string) (d : list (string * A)) : option A :=
  match d with
  | [] => None
  | (k, v) :: d' => if String.eqb key k then Some v else lookup_key key d'
  end.

(** [analyze_message_context]: one flag per tactic, in insertion order. *)
Definition analyze_message_context (message : string)
  (conversation_history : list Message) : list (string * bool) :=
  let msg_lower := lower message in
  [("upi", contains "upi" msg_lower);
   ("otp", contains "otp" msg_lower);
   ("password", contains "password" msg_lower);
   ("cvv", contains "cvv" msg_lower);
   ("link",
    contains "link" msg_lower || contains "click" msg_lower
    || contains "http" msg_lower);
   ("download", contains "download" msg_lower || contains "install" msg_lower);
   ("verify", contains "verify" msg_lower);
   ("account_blocked",
    any_in ["block"; "suspended"; "locked"; "freeze"] msg_lower);
   ("urgent", any_in ["urgent"; "immediately"; "now"; "asap"; "today"] msg_lower)].

(** The loop [for category, detected in context.items(): ... break]. *)
Fixpoint pick_category (reply_category : string)
  (items : list (string * bool)) : string :=
  match items with
  | [] => reply_category
  | (category, detected) :: items' =>
      if detected && negb (String.eqb category "default")
      then category
      else pick_category reply_category items'
  end.

(** The loop [for template in templates: ... break] over the window
    [previous_replies[-3:]]. *)
Fixpoint pick_template (selected_reply : option string)
  (templates : list string) (window : list string) : option string :=
  match templates with
  | [] => selected_reply
  | template :: templates' =>
      if negb (mem template window) then Some template
      else pick_template selected_reply templates' window
  end.

(** [templates[0]] *)
Definition first_of (templates : list string) : result string :=
  match templates with
  | t :: _ => Ok t
  | [] => Raise IndexError
  end.

Definition get_agent_reply (current_message : string)
  (conversation_history : list Message) (previous_replies : list string)
  : result string :=
  let context := analyze_message_context current_message conversation_history in
  let reply_category := pick_category "default" context in
  let templates :=
    match lookup_key reply_category RESPONSE_TEMPLATES with
    | Some ts => ts
    | None => default [] (lookup_key "default" RESPONSE_TEMPLATES)
    end in
  let selected_reply :=
    pick_template None templates (last_n 3 previous_replies) in
  match selected_reply with
  | Some (String _ _ as reply) => Ok reply
  | _ => first_of templates    (* [if not selected_reply] *)
  end.

(** [for msg in reversed(history): if sender == "scammer": ... break] *)
Definition last_scammer (conversation_history : list Message)
  : option Message :=
  List.find (fun msg => String.eqb (sender msg) "scammer")
    (rev conversation_history).

(** [generate_agent_reply], the entry point the request handler calls. *)
Definition generate_agent_reply (conversation_history : list Message)
  : result string :=
  match conversation_history with
  | [] => Ok "Why is my account being blocked?"
  | _ =>
      match last_scammer conversation_history with
      | None => Ok "Can you explain that more clearly?"
      | Some last_scammer_msg =>
          let previous_replies :=
            map text
              (List.filter (fun msg => String.eqb (sender msg) "user")
                 conversation_history) in
          get_agent_reply (text last_scammer_msg) conversation_history
            previous_replies
      end
  end.

Definition should_continue_engagement (conversation_history : list Message)
  (message_count : Z) (max_messages : Z) : bool :=
  if (max_messages <=? message_count)%Z then false else true.

(** [", ".join(tactics)] *)
Fixpoint join (sep : string) (l : list string) : string :=
  match l with
  | [] => EmptyString
  | [x] => x
  | x :: l' => String.append x (String.append sep (join sep l'))
  end.

Definition truthy {A} (l : list A) : bool :=
  match l with [] => false | _ => true end.

Definition generate_agent_notes (conversation_history : list Message)
  (extracted_intelligence : gmap string (list string)) : string :=
  let scammer_messages :=
    map (fun msg => lower (text msg))
      (List.filter (fun msg => String.eqb (sender msg) "scammer")
         conversation_history) in
  let full_text := join " " scammer_messages in
  let got key := truthy (default [] (extracted_intelligence !! key)) in
  let tactics :=
    (if any_in ["urgent"; "immediately"; "now"; "asap"] full_text
     then ["urgency pressure"] else []) ++
    (if any_in ["blocked"; "suspended"; "freeze"; "locked"] full_text
     then ["threat/coercion"] else []) ++
    (if any_in ["verify"; "confirm"; "authenticate"] full_text
     then ["credential phishing"] else []) ++
    (if any_in ["upi"; "payment"; "transaction"] full_text
     then ["financial exploitation"] else []) ++
    (if got "phishingLinks" then ["malware distribution"] else []) ++
    (if got "bankAccounts" then ["account compromise"] else []) in
  let tactics :=
    match tactics with [] => ["social engineering"] | _ => tactics end in
  let notes :=
    String.append "Scammer employed: "
      (String.append (join ", " tactics) ". ") in
  let notes :=
    if got "upiIds" then String.append notes "Requested UPI ID sharing. "
    else notes in
  let notes :=
    if got "bankAccounts" then String.append notes "Asked for bank details. "
    else notes in
  let notes :=
    if got "phishingLinks"
    then String.append notes "Provided suspicious links. " else notes in
  String.append notes
    "Attempted to establish false trust and urgency throughout conversation.".

End Agent.

(** ** app/services/guvi_callback.py *)

Module GuviCallback.

(** What [requests.post] does: a response with a status code, or one of
    the exceptions the function distinguishes. *)
Inductive post_outcome : Type :=
| Responded (status_code : Z)
| Timeout
| ConnectionError
| OtherError.

(** The JSON body of the report. *)
Record Payload : Type := {
  sessionId : string;
  scamDetected : bool;
  totalMessagesExchanged : Z;
  extractedIntelligence : list (string * list string);
  agentNotes : string
}.

Definition build_payload (session_id : string)
  (intelligence : gmap string (list string)) (total_messages : Z)
  (agent_notes : string) (scam_detected : bool) : Payload :=
  {| sessionId := session_id;
     scamDetected := scam_detected;
     totalMessagesExchanged := total_messages;
     extractedIntelligence :=
       map (fun key => (key, Extractor.get key intelligence))
         ["bankAccounts"; "upiIds"; "phishingLinks"; "phoneNumbers";
          "suspiciousKeywords"];
     agentNotes :=
       match agent_notes with
       | EmptyString => "Scammer attempted fraud through social engineering."
       | _ => agent_notes
       end |}.

(** [send_final_result]: [True] on status 200, [False] on another
    status, [CallbackException] on a timeout, a connection error or any
    other error of the call. *)
Definition send_final_result (net : post_outcome) (payload : Payload)
  : result bool :=
  match net with
  | Responded status_code => Ok (status_code =? 200)%Z
  | Timeout => Raise (CallbackException "Callback timeout")
  | ConnectionError => Raise (CallbackException "Connection error")
  | OtherError => Raise (CallbackException "Callback failed")
  end.

End GuviCallback.

(** ** app/api/routes.py *)

Module Routes.
Import ScamDetector Extractor Agent GuviCallback.

(** The settings the handler reads (app/utils/config.py). *)
Record Settings : Type := {
  API_KEY : string;
  MIN_MESSAGES_BEFORE_CALLBACK : Z;
  MAX_MESSAGES_PER_SESSION : Z;
  SESSION_TIMEOUT_MINUTES : Z
}.

Definition settings : Settings :=
  {| API_KEY := "your-secret-api-key-change-in-production";
     MIN_MESSAGES_BEFORE_CALLBACK := 3;
     MAX_MESSAGES_PER_SESSION := 20;
     SESSION_TIMEOUT_MINUTES := 30 |}.

(** [session["detection_details"]] once written. *)
Record DetectionDetails : Type := {
  score : Z;
  reasons : list string;
  message_index : Z;
  scam_types : list string
}.

(** One entry of [SESSION_STORE].  [detection_details] is [None] for the
    empty dictionary of a new session.  Times are clock readings in
    seconds. *)
Record Session : Type := {
  messages : list Message;
  intelligence : gmap string (list string);
  agent_replies : list string;
  scam_detected : bool;
  detection_details : option DetectionDetails;
  created_at : Z;
  last_activity : Z;
  engagement_concluded : bool;
  scam_score : Z
}.

Definition initialize_session (now : Z) : Session :=
  {| messages := [];
     intelligence := empty_intelligence;
     agent_replies := [];
     scam_detected := false;
     detection_details := None;
     created_at := now;
     last_activity := now;
     engagement_concluded := false;
     scam_score := 0 |}.

Definition set_messages (v : list Message) (s : Session) : Session :=
  {| messages := v; intelligence := intelligence s;
     agent_replies := agent_replies s; scam_detected := scam_detected s;
     detection_details := detection_details s; created_at := created_at s;
     last_activity := last_activity s;
     engagement_concluded := engagement_concluded s;
     scam_score := scam_score s |}.

Definition set_intelligence (v : gmap string (list string)) (s : Session)
  : Session :=
  {| messages := messages s; intelligence := v;
     agent_replies := agent_replies s; scam_detected := scam_detected s;
     detection_details := detection_details s; created_at := created_at s;
     last_activity := last_activity s;
     engagement_concluded := engagement_concluded s;
     scam_score := scam_score s |}.

Definition set_agent_replies (v : list string) (s : Session) : Session :=
  {| messages := messages s; intelligence := intelligence s;
     agent_replies := v; scam_detected := scam_detected s;
     detection_details := detection_details s; created_at := created_at s;
     last_activity := last_activity s;
     engagement_concluded := engagement_concluded s;
     scam_score := scam_score s |}.

Definition set_detection (d : DetectionDetails) (s : Session) : Session :=
  {| messages := messages s; intelligence := intelligence s;
     agent_replies := agent_replies s; scam_detected := true;
     detection_details := Some d; created_at := created_at s;
     last_activity := last_activity s;
     engagement_concluded := engagement_concluded s;
     scam_score := scam_score s |}.

Definition set_last_activity (v : Z) (s : Session) : Session :=
  {| messages := messages s; intelligence := intelligence s;
     agent_replies := agent_replies s; scam_detected := scam_detected s;
     detection_details := detection_details s; created_at := created_at s;
     last_activity := v;
     engagement_concluded := engagement_concluded s;
     scam_score := scam_score s |}.

Definition set_engagement_concluded (v : bool) (s : Session) : Session :=
  {| messages := messages s; intelligence := intelligence s;
     agent_replies := agent_replies s; scam_detected := scam_detected s;
     detection_details := detection_details s; created_at := created_at s;
     last_activity := last_activity s;
     engagement_concluded := v;
     scam_score := scam_score s |}.

Definition set_scam_score (v : Z) (s : Session) : Session :=
  {| messages := messages s; intelligence := intelligence s;
     agent_replies := agent_replies s; scam_detected := scam_detected s;
     detection_details := detection_details s; created_at := created_at s;
     last_activity := last_activity s;
     engagement_concluded := engagement_concluded s;
     scam_score := v |}.

(** The request body, [AnalyzeMessageRequestModel]. *)
Record Request : Type := {
  req_sessionId : string;
  message : Message;
  conversationHistory : list Message
}.

(** What the handler answers: an [AgentReplyModel] or an HTTP error. *)
Inductive Response : Type :=
| AgentReplyModel (status : string) (reply : option string)
| HTTPException (status_code : Z).

(** [authenticate_request]: [None] when the key is accepted. *)
Definition authenticate_request (cfg : Settings) (x_api_key : option string)
  : option Z :=
  match x_api_key with
  | None => Some 401
  | Some EmptyString => Some 401
  | Some key => if String.eqb key (API_KEY cfg) then None else Some 403
  end.

Definition get_or_create_session (store : gmap string Session)
  (session_id : string) (now : Z) : gmap string Session * Session :=
  match store !! session_id with
  | None =>
      let s := initialize_session now in (<[session_id := s]> store, s)
  | Some s =>
      let s := set_last_activity now s in (<[session_id := s]> store, s)
  end.

Definition cleanup_old_sessions (cfg : Settings) (now : Z)
  (store : gmap string Session) : gmap string Session :=
  let timeout := (SESSION_TIMEOUT_MINUTES cfg * 60)%Z in
  filter (fun kv => ¬ (timeout < now - last_activity (snd kv))%Z) store.

(** The merge loop of the handler:
    [for key in new: if key in acc: acc[key].extend(new[key]);
     acc[key] = list(set(acc[key]))]. *)
Definition merge_key (acc : gmap string (list string))
  (kv : string * list string) : gmap string (list string) :=
  match acc !! fst kv with
  | Some old => <[fst kv := list_of_set (old ++ snd kv)]> acc
  | None => acc
  end.

Definition merge_intelligence (session_intelligence new_intelligence
  : gmap string (list string)) : gmap string (list string) :=
  fold_left merge_key (map_to_list new_intelligence) session_intelligence.

(** The body of [analyze_message] on the session of the request, after
    authentication and session lookup: the session as the turn leaves it,
    the answer, and the reports handed to the dispatcher in this turn. *)
Definition process (cfg : Settings) (session : Session) (payload : Request)
  (net : post_outcome) : Session * Response * list Payload :=
  let session_id := req_sessionId payload in
  let message_text := text (message payload) in
  let conversation_history := conversationHistory payload in
  let session := set_messages (messages session ++ [message payload]) session in
  let total_messages := Z.of_nat (length (messages session)) in
  let '(is_scam, reasons, score) :=
    detect_scam message_text conversation_history in
  let session := set_scam_score (Z.max (scam_score session) score) session in
  if negb is_scam then (session, AgentReplyModel "ignored" None, [])
  else
    let session :=
      if negb (scam_detected session) then
        set_detection
          {| score := score; reasons := reasons;
             message_index := total_messages;
             scam_types := get_scam_details message_text |} session
      else session in
    let full_conversation := conversation_history ++ [message payload] in
    let new_intelligence :=
      extract_intelligence message_text full_conversation in
    let session :=
      set_intelligence
        (merge_intelligence (intelligence session) new_intelligence) session in
    match generate_agent_reply conversation_history with
    | Raise _ => (session, HTTPException 500, [])
    | Ok agent_reply =>
        let session :=
          set_agent_replies (agent_replies session ++ [agent_reply]) session in
        let should_continue :=
          should_continue_engagement full_conversation total_messages
            (MAX_MESSAGES_PER_SESSION cfg) in
        if negb should_continue && negb (engagement_concluded session) then
          let agent_notes :=
            generate_agent_notes full_conversation (intelligence session) in
          let report :=
            build_payload session_id (intelligence session) total_messages
              agent_notes true in
          match send_final_result net report with
          | Ok true =>
              (set_engagement_concluded true session,
               AgentReplyModel "success" (Some agent_reply), [report])
          | Ok false =>
              (session, AgentReplyModel "success" (Some agent_reply), [report])
          | Raise (CallbackException _) =>
              (session, AgentReplyModel "success" (Some agent_reply), [report])
          | Raise _ => (session, HTTPException 500, [report])
          end
        else (session, AgentReplyModel "success" (Some agent_reply), [])
    end.

(** [analyze_message]: authentication, the sweep of idle sessions, the
    lookup, then the turn on the session, which is updated in place in
    the store. *)
Definition analyze_message (cfg : Settings) (store : gmap string Session)
  (now : Z) (x_api_key : option string) (payload : Request)
  (net : post_outcome) : gmap string Session * Response * list Payload :=
  match authenticate_request cfg x_api_key with
  | Some status_code => (store, HTTPException status_code, [])
  | None =>
      let store := cleanup_old_sessions cfg now store in
      let '(store, session) :=
        get_or_create_session store (req_sessionId payload) now in
      let '(session, response, reports) := process cfg session payload net in
      (<[req_sessionId payload := session]> store, response, reports)
  end.

(** A session fed a sequence of requests, each with what the report
    endpoint would do in that turn. *)
Fixpoint run (cfg : Settings) (session : Session)
  (inputs : list (Request * post_outcome))
  : Session * list (Response * list Payload) :=
  match inputs with
  | [] => (session, [])
  | (payload, net) :: inputs' =>
      let '(session', response, reports) := process cfg session payload net in
      let '(final, trace) := run cfg session' inputs' in
      (final, (response, reports) :: trace)
  end.

End Routes.

(** ** The Reply Strategist as the specification words it *)

Module StrategistSpec.
Import Text Agent.

(** The tactic markers, in their priority order. *)
Definition MARKERS : list (string * list string) :=
  [("upi", ["upi"]);
   ("otp", ["otp"]);
   ("password", ["password"]);
   ("cvv", ["cvv"]);
   ("link", ["link"; "click"; "http"]);
   ("download", ["download"; "install"]);
   ("verify", ["verify"]);
   ("account_blocked", ["block"; "suspended"; "locked"; "freeze"]);
   ("urgent", ["urgent"; "immediately"; "now"; "asap"; "today"])].

(** The first category whose marker occurs in the message, [default]
    when none does. *)
Definition category_of (message : string) : string :=
  match List.find (fun entry => any_in (snd entry) (lower message)) MARKERS with
  | Some entry => fst entry
  | None => "default"
  end.

Definition templates_of (category : string) : list string :=
  default [] (lookup_key category RESPONSE_TEMPLATES).

(** The anti-repetition window: the last three entries of the own
    replies, in their order.  Counted from the end of the list: the three
    first entries of the list read backwards. *)
Definition window (recentOwnReplies : list string) : list string :=
  rev (firstn 3 (rev recentOwnReplies)).

(** The first template not in the window, else the first template. *)
Definition select (templates : list string) (recent : list string)
  : option string :=
  match List.find (fun t => negb (mem t recent)) templates with
  | Some t => Some t
  | None => head templates
  end.

Definition selectReply (currentMessage : string)
  (recentOwnReplies : list string) : option string :=
  select (templates_of (category_of currentMessage)) (window recentOwnReplies).

End StrategistSpec.

(** ** What a turn observes *)

Module Observe.
Import Text Regex ScamDetector Extractor Agent GuviCallback Routes.

(** The scorer on the message of a request. *)
Definition verdict (payload : Request) : bool :=
  fst (fst (detect_scam (text (message payload)) (conversationHistory payload))).

Definition reasons_of (payload : Request) : list string :=
  snd (fst (detect_scam (text (message payload)) (conversationHistory payload))).

Definition score_of (payload : Request) : Z :=
  snd (detect_scam (text (message payload)) (conversationHistory payload)).

(** The reply the handler computes for a request. *)
Definition reply_for (payload : Request) : string :=
  match generate_agent_reply (conversationHistory payload) with
  | Ok reply => reply
  | Raise _ => EmptyString
  end.

(** The detection details a request writes as message number [index]. *)
Definition snapshot (payload : Request) (index : Z) : DetectionDetails :=
  {| score := score_of payload;
     reasons := reasons_of payload;
     message_index := index;
     scam_types := get_scam_details (text (message payload)) |}.

(** The details of the first request of a sequence whose score reaches
    the threshold; [index] numbers the first request. *)
Fixpoint first_crossing (index : Z) (payloads : list Request)
  : option DetectionDetails :=
  match payloads with
  | [] => None
  | payload :: payloads' =>
      if verdict payload then Some (snapshot payload index)
      else first_crossing (index + 1) payloads'
  end.

(** The message count of the turn that processes the next message. *)
Definition next_count (session : Session) : Z :=
  (Z.of_nat (length (messages session)) + 1)%Z.

(** The turn hands a report to the dispatcher. *)
Definition dispatches (cfg : Settings) (session : Session)
  (payload : Request) : bool :=
  verdict payload
  && (MAX_MESSAGES_PER_SESSION cfg <=? next_count session)%Z
  && negb (engagement_concluded session).

(** The endpoint accepts the report: status 200. *)
Definition delivered (net : post_outcome) : bool :=
  match net with
  | Responded status_code => (status_code =? 200)%Z
  | _ => false
  end.

(** The reports of a run that the endpoint accepted. *)
Fixpoint successes (inputs : list (Request * post_outcome))
  (trace : list (Response * list Payload)) : nat :=
  match inputs, trace with
  | (_, net) :: inputs', (_, reports) :: trace' =>
      ((if delivered net then length reports else 0) + successes inputs' trace')%nat
  | _, _ => 0%nat
  end.

Definition status_of (response : Response) : string :=
  match response with
  | AgentReplyModel status _ => status
  | HTTPException _ => "error"
  end.

(** The scores and the requests a run observes, in order. *)
Definition observed_scores (inputs : list (Request * post_outcome)) : list Z :=
  map (fun input => score_of (fst input)) inputs.

Definition requests_of (inputs : list (Request * post_outcome))
  : list Request :=
  map fst inputs.

(** Per turn of a trace: the status answered and how many reports were
    handed to the dispatcher. *)
Definition outline (trace : list (Response * list Payload))
  : list (string * nat) :=
  map (fun turn => (status_of (fst turn), length (snd turn))) trace.

Definition session_after (cfg : Settings) (session : Session)
  (payload : Request) (net : post_outcome) : Session :=
  fst (fst (process cfg session payload net)).

Definition response_of (cfg : Settings) (session : Session)
  (payload : Request) (net : post_outcome) : Response :=
  snd (fst (process cfg session payload net)).

Definition reports_of (cfg : Settings) (session : Session)
  (payload : Request) (net : post_outcome) : list Payload :=
  snd (process cfg session payload net).

(** The accumulated entries of one category, as a set. *)
Definition category (key : string) (intel : gmap string (list string))
  : gset string :=
  list_to_set (Extractor.get key intel).

Definition bankAccounts (text : string) (full_conversation : list Message)
  : list string :=
  Extractor.get "bankAccounts" (extract_intelligence text full_conversation).

Definition emailAddresses (text : string) (full_conversation : list Message)
  : list string :=
  Extractor.get "emailAddresses" (extract_intelligence text full_conversation).

Definition digit_opt (o : option ascii) : bool :=
  match o with Some c => is_digit c | None => false end.

(** [tok] is a run of consecutive digits between [pre] and [post]: no
    digit stands next to it. *)
Definition digit_run (pre tok post : string) : Prop :=
  all_digits tok = true /\
  digit_opt (last_char None pre) = false /\
  digit_opt (head_char post) = false.

(** [tok] is a run of digits standing as a word of its own: no letter,
    digit or underscore stands next to it. *)
Definition digit_token (pre tok post : string) : Prop :=
  all_digits tok = true /\
  word_opt (last_char None pre) = false /\
  word_opt (head_char post) = false.

(** The timestamp heuristic in the words of the specification. *)
Definition timestamp_like (tok : string) : Prop :=
  (1000000000 < int_of_digits tok)%Z /\ (String.length tok <= 13)%nat.

(** The domain of an address: what follows its last [@]. *)
Fixpoint domain_of (e : string) : string :=
  match e with
  | EmptyString => EmptyString
  | String c t =>
      if contains "@" t then domain_of t
      else if Ascii.eqb c "@" then t else EmptyString
  end.

Definition trusted_provider (e : string) : bool :=
  mem (lower (domain_of e)) ["gmail.com"; "yahoo.com"; "outlook.com"].

Definition has_suspicious_keyword (text : string) : bool :=
  any_in SUSPICIOUS_KEYWORDS (lower text).

End Observe.

(** ** Concrete conversations *)

Module Scenario.
Import Routes GuviCallback.

(** The conversation of [test_multi_turn] in test_api.py. *)
Definition turn1 : Message :=
  Msg "scammer"
    "Your bank account has suspicious activity. Click to verify: http://verify.com"
    1000.
Definition turn2 : Message :=
  Msg "scammer"
    "To confirm your identity, share your 16-digit card number and CVV" 61000.
Definition turn3 : Message :=
  Msg "scammer"
    "Also provide your UPI ID (yourname@upi) for faster verification" 121000.

Definition request1 : Request :=
  {| req_sessionId := "multi-turn-1"; message := turn1;
     conversationHistory := [] |}.
Definition request2 : Request :=
  {| req_sessionId := "multi-turn-1"; message := turn2;
     conversationHistory := [turn1] |}.
Definition request3 : Request :=
  {| req_sessionId := "multi-turn-1"; message := turn3;
     conversationHistory := [turn1; turn2] |}.

(** A session that reaches the message cap. *)
Definition otp_request : Request :=
  {| req_sessionId := "s-42"; message := Msg "scammer" "Share your OTP now" 5;
     conversationHistory := [] |}.
Definition quiet_request : Request :=
  {| req_sessionId := "s-42"; message := Msg "scammer" "ok" 6;
     conversationHistory := [] |}.

(** Twenty scoring messages; the report of the twentieth times out. *)
Definition capped_inputs : list (Request * post_outcome) :=
  repeat (otp_request, Responded 200) 19 ++ [(otp_request, Timeout)].

(** Nineteen ignored messages, then one that scores. *)
Definition quiet_then_scam : list (Request * post_outcome) :=
  repeat (quiet_request, Responded 200) 19 ++ [(otp_request, Responded 200)].

(** The same message text with two histories. *)
Definition otp_after_link : Request :=
  {| req_sessionId := "s-42"; message := Msg "scammer" "Share your OTP now" 5;
     conversationHistory := [Msg "scammer" "Click the link" 4] |}.

(** Three messages that press the same link, sent the way
    [test_multi_turn] builds its requests: the history holds the earlier
    scammer messages and none of the replies. *)
Definition link_turn1 : Message :=
  Msg "scammer" "Click the link to verify your account: http://verify.com" 1000.
Definition link_turn2 : Message :=
  Msg "scammer" "Click the link now or your account will be blocked" 61000.
Definition link_turn3 : Message :=
  Msg "scammer" "Last warning: click the link today" 121000.

Definition link_request1 : Request :=
  {| req_sessionId := "s-9"; message := link_turn1;
     conversationHistory := [] |}.
Definition link_request2 : Request :=
  {| req_sessionId := "s-9"; message := link_turn2;
     conversationHistory := [link_turn1] |}.
Definition link_request3 : Request :=
  {| req_sessionId := "s-9"; message := link_turn3;
     conversationHistory := [link_turn1; link_turn2] |}.

(** A scoring message after the first two messages of [test_multi_turn]. *)
Definition otp_after_two : Request :=
  {| req_sessionId := "multi-turn-1";
     message := Msg "scammer" "Share your OTP now" 181000;
     conversationHistory := [turn1; turn2] |}.

(** A history with four replies of the user side; the oldest is the
    first link template. *)
Definition long_history : list Message :=
  [Msg "scammer" "Click the link" 1;
   Msg "user" "Can you explain what this link is for?" 2;
   Msg "scammer" "Share your OTP" 3;
   Msg "user" "Is it safe to share OTP? What will you use it for?" 4;
   Msg "scammer" "The OTP please" 5;
   Msg "user" "Why do you need my OTP? I've heard it's dangerous." 6;
   Msg "scammer" "Send the OTP" 7;
   Msg "user" "Can someone misuse my OTP if I share it?" 8;
   Msg "scammer" "Click the link" 9].
Definition otp_after_long : Request :=
  {| req_sessionId := "s-11";
     message := Msg "scammer" "Share your OTP now" 10;
     conversationHistory := long_history |}.

(** The two messages of the scorer's acceptance examples. *)
Definition bank_message : string :=
  "Your bank account will be blocked. Verify immediately at https://bank-verify.com".
Definition bus_message : string := "Hi, can you help with bus directions?".

(** A scoring message with an address at a trusted provider and no
    suspicious keyword. *)
Definition gmail_text : string :=
  "Send payment to bob@gmail.com via bank wallet".
Definition gmail_request : Request :=
  {| req_sessionId := "s-7"; message := Msg "scammer" gmail_text 7;
     conversationHistory := [] |}.
(** The conversation the handler passes to the extractor: the history
    and the current message. *)
Definition gmail_conversation : list Message :=
  conversationHistory gmail_request ++ [message gmail_request].

End Scenario.

(** ** The read-only endpoints and the enrichment helper *)

Module Service.
Import Extractor Routes.

(** The body of the answer of [get_session_info]; times are the clock
    readings the session stores. *)
Record SessionInfo : Type := {
  info_sessionId : string;
  messageCount : nat;
  scamDetected : bool;
  detectionDetails : option DetectionDetails;
  extractedIntelligence : gmap string (list string);
  engagementConcluded : bool;
  createdAt : Z;
  lastActivity : Z
}.

(** [get_session_info]: the HTTP status of the error ([inl]) or the
    snapshot of the session ([inr]).  It neither sweeps the store nor
    touches [last_activity]. *)
Definition get_session_info (cfg : Settings) (store : gmap string Session)
  (session_id : string) (x_api_key : option string) : Z + SessionInfo :=
  match authenticate_request cfg x_api_key with
  | Some status_code => inl status_code
  | None =>
      match store !! session_id with
      | None => inl 404%Z
      | Some session =>
          inr {| info_sessionId := session_id;
                 messageCount := length (messages session);
                 scamDetected := scam_detected session;
                 detectionDetails := detection_details session;
                 extractedIntelligence := intelligence session;
                 engagementConcluded := engagement_concluded session;
                 createdAt := created_at session;
                 lastActivity := last_activity session |}
      end
  end.

(** The ["sessions"] field of [health_check]: [len(SESSION_STORE)]. *)
Definition health_sessions (store : gmap string Session) : nat := size store.

(** A value of the dictionary [enrich_intelligence] returns: a list of
    strings, [None], or a string. *)
Inductive value : Type :=
| VList (l : list string)
| VNone
| VStr (s : string).

(** [if enriched.get(key)]: the entry is there and is not empty. *)
Definition truthy_at (key : string) (enriched : gmap string value) : bool :=
  match enriched !! key with
  | Some (VList (_ :: _)) => true
  | Some (VStr (String _ _)) => true
  | _ => false
  end.

Definition enrich_intelligence (intelligence : gmap string (list string))
  : gmap string value :=
  let enriched : gmap string value := VList <$> intelligence in
  let enriched := <["extracted_at" := VNone]> enriched in
  if truthy_at "bankAccounts" enriched || truthy_at "bitcoinAddresses" enriched
  then <["severity" := VStr "critical"]> enriched
  else if truthy_at "phoneNumbers" enriched
          || truthy_at "emailAddresses" enriched
  then <["severity" := VStr "high"]> enriched
  else <["severity" := VStr "medium"]> enriched.

End Service.

(** ** Vocabulary for the properties of the whole code *)

Module Facts.
Import Text Regex ScamDetector Extractor Agent GuviCallback Routes.

(** The eight categories of an intelligence dictionary. *)
Definition CATEGORIES : list string :=
  ["bankAccounts"; "upiIds"; "phishingLinks"; "phoneNumbers";
   "suspiciousKeywords"; "emailAddresses"; "bitcoinAddresses"; "ipAddresses"].

(** The five categories of the final report. *)
Definition REPORT_CATEGORIES : list string :=
  ["bankAccounts"; "upiIds"; "phishingLinks"; "phoneNumbers";
   "suspiciousKeywords"].

(** What the body of [extract_intelligence] collects from the text for a
    category, before cleaning. *)
Definition text_matches (key : string) (text : string) : list string :=
  if String.eqb key "upiIds" then findall UPI_REGEX text
  else if String.eqb key "phishingLinks" then findall Extractor.URL_REGEX text
  else if String.eqb key "phoneNumbers" then findall PHONE_REGEX text
  else if String.eqb key "bankAccounts"
  then List.filter valid_account (findall BANK_ACCOUNT_REGEX text)
  else if String.eqb key "emailAddresses"
  then List.filter (suspicious_email text) (findall EMAIL_REGEX text)
  else if String.eqb key "bitcoinAddresses" then findall BITCOIN_REGEX text
  else if String.eqb key "ipAddresses" then findall IP_ADDRESS_REGEX text
  else if String.eqb key "suspiciousKeywords"
  then List.filter (fun kw => contains kw (lower text)) SUSPICIOUS_KEYWORDS
  else [].

(** What the loop over the conversation collects from one message. *)
Definition message_matches (key : string) (msg : Message) : list string :=
  if String.eqb key "upiIds" then findall UPI_REGEX (text msg)
  else if String.eqb key "phishingLinks"
  then findall Extractor.URL_REGEX (text msg)
  else if String.eqb key "phoneNumbers" then findall PHONE_REGEX (text msg)
  else if String.eqb key "emailAddresses" then findall EMAIL_REGEX (text msg)
  else [].

Definition conversation_matches (key : string) (conv : list Message)
  : list string :=
  concat (map (message_matches key) conv).

(** [x] occurs in [s]. *)
Definition substring (x s : string) : Prop :=
  exists a b, s = (a ++ x ++ b)%string.



(** The first digit is not a zero. *)
Definition no_leading_zero (tok : string) : bool :=
  match tok with
  | String c _ => negb (Ascii.eqb c "0")
  | EmptyString => false
  end.

(** How the fields of a session hang together. *)
Definition consistent (session : Session) : Prop :=
  scam_detected session = (4 <=? scam_score session)%Z /\
  (detection_details session = None <-> scam_detected session = false) /\
  (scam_detected session = false ->
   agent_replies session = [] /\
   intelligence session = empty_intelligence /\
   engagement_concluded session = false) /\
  (length (agent_replies session) <= length (messages session))%nat.

(** The session a request starts from: a new one when the identifier is
    unknown or its session has been idle for longer than the timeout, the
    stored one, refreshed, otherwise. *)
Definition expired (cfg : Settings) (now : Z) (session : Session) : bool :=
  (SESSION_TIMEOUT_MINUTES cfg * 60 <? now - last_activity session)%Z.

Definition starting_session (cfg : Settings) (store : gmap string Session)
  (now : Z) (session_id : string) : Session :=
  match store !! session_id with
  | Some session =>
      if expired cfg now session then initialize_session now
      else set_last_activity now session
  | None => initialize_session now
  end.


(** [ws] laid end to end. *)
Definition joined (ws : list string) : string :=
  fold_right String.append EmptyString ws.

(** The strings a pattern can match, the context that [\b] looks at left
    aside. *)
Fixpoint shape (r : regex) (w : string) : Prop :=
  match r with
  | Eps => w = EmptyString
  | WordB => w = EmptyString
  | Class p => exists x, w = String x EmptyString /\ p x = true
  | Seq r1 r2 =>
      exists w1 w2, w = (w1 ++ w2)%string /\ shape r1 w1 /\ shape r2 w2
  | Alt r1 r2 => shape r1 w \/ shape r2 w
  | Rep r1 lo hi =>
      exists ws,
        w = joined ws /\ (lo <= length ws)%nat /\
        match hi with Some h => (length ws <= h)%nat | None => True end /\
        Forall (shape r1) ws
  end.

(** Every character of [s] is in the class [p]. *)
Fixpoint every (p : ascii -> bool) (s : string) : bool :=
  match s with
  | EmptyString => true
  | String c t => p c && every p t
  end.

Definition leading (p : ascii -> bool) (s : string) : bool :=
  match s with
  | String c _ => p c
  | EmptyString => false
  end.

(** A link as the report lists it: [http://] or [https://] and then at
    least one character, none of them white space. *)
Definition link_shaped (x : string) : Prop :=
  exists s w,
    x = ("http" ++ s ++ "://" ++ w)%string /\
    (s = EmptyString \/ s = "s") /\
    w <> EmptyString /\ every (non is_space) w = true.




End Facts.

(** * Properties *)

Import Text Regex ScamDetector Extractor Agent GuviCallback Routes
  StrategistSpec Observe Scenario.

(** ** The scorer *)

Lemma count_in_nonneg ws s : 0 <= count_in ws s.
Proof. unfold count_in. lia. Qed.

Lemma family_nonneg n w tag st :
  0 <= n -> 0 <= w -> 0 <= fst st -> 0 <= fst (family n w tag st).
Proof.
  intros Hn Hw Hst. unfold family.
  destruct (0 <? n)%Z; simpl; nia.
Qed.

Lemma escalation_fst_le msg hist st : fst st <= fst (escalation msg hist st).
Proof.
  unfold escalation. destruct hist as [|m0 hist0]; [lia|].
  generalize (last_n 3 (m0 :: hist0)). intros l.
  revert st. induction l as [|m l IH]; intros st; simpl; [lia|].
  etransitivity; [|apply IH].
  repeat match goal with |- context [if ?b then _ else _] => destruct b end;
    simpl; lia.
Qed.

Ltac open_let :=
  match goal with
  | |- 0 <= snd (let x := ?v in @?b x) =>
      change (let x := v in 0 <= snd (b x)); intro; cbv beta
  end.

Ltac split_ifs :=
  repeat match goal with
         | |- context [if ?b then _ else _] => destruct b
         end.

Ltac count_facts :=
  repeat match goal with
         | n := count_in ?ws ?m |- _ =>
             lazymatch goal with
             | H : 0 <= n |- _ => fail
             | _ => assert (0 <= n) by (unfold n; apply count_in_nonneg)
             end
         end.

Ltac nonneg_step :=
  match goal with
  | st := _ : (Z * list string)%type |- _ =>
      lazymatch goal with
      | H : 0 <= fst st |- _ => fail
      | _ =>
          assert (0 <= fst st)
            by (unfold st;
                first [ apply family_nonneg;
                        [apply count_in_nonneg | lia | assumption]
                      | etransitivity; [|apply escalation_fst_le]; assumption
                      | count_facts; split_ifs; cbn [fst snd]; lia ])
      end
  end.

(** Every family adds a non-negative amount: the score is never negative. *)
Lemma detect_scam_score_nonneg message hist :
  0 <= snd (detect_scam message hist).
Proof.
  cbv beta delta [detect_scam].
  repeat (open_let; try nonneg_step).
  cbn [fst snd]. assumption.
Qed.

Lemma score_of_nonneg payload : 0 <= score_of payload.
Proof. apply detect_scam_score_nonneg. Qed.

Lemma verdict_threshold payload :
  verdict payload = (THRESHOLD <=? score_of payload)%Z.
Proof. reflexivity. Qed.

Lemma detect_scam_eta payload :
  detect_scam (text (message payload)) (conversationHistory payload)
  = (verdict payload, reasons_of payload, score_of payload).
Proof.
  unfold verdict, reasons_of, score_of.
  destruct (detect_scam _ _) as [[a b] c]. reflexivity.
Qed.

(** ** The Reply Strategist *)

Lemma pick_category_spec message hist :
  pick_category "default" (analyze_message_context message hist)
  = category_of message.
Proof.
  unfold category_of, analyze_message_context, MARKERS, any_in.
  cbn [pick_category List.find existsb snd fst].
  set (m := lower message).
  repeat match goal with
         | |- context [contains ?w m] =>
             destruct (contains w m);
             cbn [orb andb negb String.eqb]; try reflexivity
         end.
Qed.

Lemma category_of_cases message :
  In (category_of message)
    ["upi"; "otp"; "password"; "cvv"; "link"; "download"; "verify";
     "account_blocked"; "urgent"; "default"].
Proof.
  unfold category_of, MARKERS. cbn [List.find snd fst].
  repeat match goal with
         | |- context [if ?b then _ else _] => destruct b; [cbn; tauto|]
         end.
  cbn; tauto.
Qed.

Lemma pick_template_find templates recent :
  pick_template None templates recent
  = List.find (fun t => negb (mem t recent)) templates.
Proof.
  induction templates as [|t ts IH]; cbn; [reflexivity|].
  destruct (negb (mem t recent)); [reflexivity | exact IH].
Qed.

(** The window of the specification is the slice [previous_replies[-3:]]. *)
Lemma window_last_n recentOwnReplies :
  window recentOwnReplies = last_n 3 recentOwnReplies.
Proof.
  unfold window, last_n. rewrite firstn_rev, rev_involutive. reflexivity.
Qed.

Lemma get_agent_reply_spec message hist previous_replies :
  exists reply,
    selectReply message previous_replies = Some reply /\
    get_agent_reply message hist previous_replies = Ok reply.
Proof.
  unfold get_agent_reply, selectReply, select, templates_of.
  rewrite window_last_n, pick_category_spec, pick_template_find.
  generalize (last_n 3 previous_replies). intros recent.
  pose proof (category_of_cases message) as Hc.
  cbn [In] in Hc.
  repeat match type of Hc with
         | _ \/ _ => destruct Hc as [Hc | Hc]
         end; try contradiction; rewrite <- Hc;
    cbn [lookup_key RESPONSE_TEMPLATES String.eqb Ascii.eqb Bool.eqb default
         from_option id List.find head first_of];
    repeat match goal with
           | |- context [negb (mem ?t recent)] =>
               destruct (negb (mem t recent)); cbn [List.find head first_of]
           end; eexists; split; reflexivity.
Qed.

(** Only the last three own replies reach the selection. *)
Lemma last_n_three {A} (older : list A) r1 r2 r3 :
  last_n 3 (older ++ [r1; r2; r3]) = [r1; r2; r3].
Proof.
  unfold last_n. rewrite length_app. cbn [length].
  replace (length older + 3 - 3)%nat with (length older + 0)%nat by lia.
  rewrite skipn_app, Nat.add_0_r, skipn_all.
  replace (length older - length older)%nat with 0%nat by lia.
  reflexivity.
Qed.

(** The handler's reply function never raises. *)
Lemma generate_agent_reply_ok payload :
  generate_agent_reply (conversationHistory payload) = Ok (reply_for payload).
Proof.
  unfold reply_for.
  assert (H : exists r, generate_agent_reply (conversationHistory payload) = Ok r).
  { unfold generate_agent_reply.
    destruct (conversationHistory payload) as [|m l]; [eauto|].
    destruct (last_scammer (m :: l)) as [sc|]; [|eauto].
    destruct (get_agent_reply_spec (text sc) (m :: l)
                (map text (List.filter (fun msg => String.eqb (sender msg) "user")
                             (m :: l)))) as [r [_ Hr]].
    eauto. }
  destruct H as [r Hr]. rewrite Hr. reflexivity.
Qed.

(** ** One turn of the handler *)

Lemma delivered_spec net report :
  send_final_result net report =
  match net with
  | Responded _ => Ok (delivered net)
  | Timeout => Raise (CallbackException "Callback timeout")
  | ConnectionError => Raise (CallbackException "Connection error")
  | OtherError => Raise (CallbackException "Callback failed")
  end.
Proof. destruct net; reflexivity. Qed.

Ltac turn_simpl :=
  cbn [negb andb orb fst snd messages scam_score scam_detected
       detection_details agent_replies engagement_concluded intelligence
       set_messages set_scam_score set_detection set_intelligence
       set_agent_replies set_engagement_concluded send_final_result
       delivered length].

Ltac turn_known :=
  repeat match goal with
         | H : ?x = _ |- context [?x] => rewrite H
         end.

Ltac turn_cases cfg session payload net :=
  unfold session_after, response_of, reports_of, process, dispatches, next_count;
  rewrite detect_scam_eta, generate_agent_reply_ok;
  unfold should_continue_engagement;
  turn_simpl; rewrite ?length_app; turn_simpl;
  replace (Z.of_nat (length (messages session) + 1))
    with (Z.of_nat (length (messages session)) + 1) by lia;
  repeat (turn_simpl; turn_known; turn_simpl;
          match goal with
          | |- context [verdict payload] => destruct (verdict payload) eqn:?
          | |- context [(?a <=? ?b)%Z] => destruct (a <=? b)%Z eqn:?
          | |- context [(?a =? ?b)%Z] => destruct (a =? b)%Z eqn:?
          | |- context [scam_detected session] =>
              destruct (scam_detected session) eqn:?
          | |- context [engagement_concluded session] =>
              destruct (engagement_concluded session) eqn:?
          | |- context [send_final_result net _] => destruct net
          | |- context [delivered net] => destruct net
          end);
  turn_simpl; turn_known.

Lemma turn_messages cfg session payload net :
  messages (session_after cfg session payload net)
  = messages session ++ [message payload].
Proof. turn_cases cfg session payload net; reflexivity. Qed.

Lemma turn_scam_score cfg session payload net :
  scam_score (session_after cfg session payload net)
  = Z.max (scam_score session) (score_of payload).
Proof. turn_cases cfg session payload net; reflexivity. Qed.

Lemma turn_scam_detected cfg session payload net :
  scam_detected (session_after cfg session payload net)
  = scam_detected session || verdict payload.
Proof. turn_cases cfg session payload net; reflexivity. Qed.

Lemma turn_detection_details cfg session payload net :
  detection_details (session_after cfg session payload net)
  = if scam_detected session then detection_details session
    else if verdict payload
         then Some (snapshot payload (next_count session))
         else detection_details session.
Proof. turn_cases cfg session payload net; reflexivity. Qed.

Lemma turn_agent_replies cfg session payload net :
  agent_replies (session_after cfg session payload net)
  = if verdict payload then agent_replies session ++ [reply_for payload]
    else agent_replies session.
Proof. turn_cases cfg session payload net; reflexivity. Qed.

Lemma turn_intelligence cfg session payload net :
  intelligence (session_after cfg session payload net)
  = if verdict payload
    then merge_intelligence (intelligence session)
           (extract_intelligence (text (message payload))
              (conversationHistory payload ++ [message payload]))
    else intelligence session.
Proof. turn_cases cfg session payload net; reflexivity. Qed.

Lemma turn_response cfg session payload net :
  response_of cfg session payload net
  = if verdict payload
    then AgentReplyModel "success" (Some (reply_for payload))
    else AgentReplyModel "ignored" None.
Proof. turn_cases cfg session payload net; reflexivity. Qed.

Lemma turn_reports cfg session payload net :
  length (reports_of cfg session payload net)
  = if dispatches cfg session payload then 1%nat else 0%nat.
Proof. turn_cases cfg session payload net; reflexivity. Qed.

Lemma turn_concluded cfg session payload net :
  engagement_concluded (session_after cfg session payload net)
  = engagement_concluded session
    || (dispatches cfg session payload && delivered net).
Proof. turn_cases cfg session payload net; reflexivity. Qed.

(** ** Runs of a session *)

Lemma run_cons cfg session payload net inputs :
  run cfg session ((payload, net) :: inputs)
  = (fst (run cfg (session_after cfg session payload net) inputs),
     (response_of cfg session payload net, reports_of cfg session payload net)
     :: snd (run cfg (session_after cfg session payload net) inputs)).
Proof.
  unfold session_after, response_of, reports_of. cbn [run].
  destruct (process cfg session payload net) as [[s' r] reps].
  cbn [fst snd]. destruct (run cfg s' inputs) as [final trace]. reflexivity.
Qed.

Lemma run_scam_score cfg session inputs :
  scam_score (fst (run cfg session inputs))
  = fold_left Z.max (observed_scores inputs) (scam_score session).
Proof.
  revert session. induction inputs as [|[payload net] inputs IH]; intros session.
  - reflexivity.
  - rewrite run_cons. cbn [fst observed_scores map fold_left].
    rewrite IH, turn_scam_score. reflexivity.
Qed.

Lemma fold_max_ge l a : a <= fold_left Z.max l a.
Proof.
  revert a. induction l as [|x l IH]; intros a; cbn [fold_left]; [lia|].
  etransitivity; [|apply IH]. lia.
Qed.

Lemma fold_max_upper l a : Forall (fun x => x <= fold_left Z.max l a) l.
Proof.
  revert a. induction l as [|x l IH]; intros a; cbn [fold_left];
    constructor; [|apply IH].
  etransitivity; [|apply fold_max_ge]. lia.
Qed.

Lemma fold_max_attained l a : fold_left Z.max l a = a \/ In (fold_left Z.max l a) l.
Proof.
  revert a. induction l as [|x l IH]; intros a; cbn [fold_left]; [auto|].
  destruct (IH (Z.max a x)) as [H|H]; [|right; right; exact H].
  rewrite H. destruct (Z.max_spec a x) as [[_ E]|[_ E]]; rewrite E.
  - right; left; reflexivity.
  - left; reflexivity.
Qed.

Lemma observed_scores_nonneg inputs :
  Forall (fun x => 0 <= x) (observed_scores inputs).
Proof.
  induction inputs as [|[payload net] inputs IH]; constructor;
    [apply score_of_nonneg | exact IH].
Qed.

(** The ceiling of a session that starts at zero is one of the scores it
    observed. *)
Lemma ceiling_attained input inputs :
  In (fold_left Z.max (observed_scores (input :: inputs)) 0)
     (observed_scores (input :: inputs)).
Proof.
  destruct (fold_max_attained (observed_scores (input :: inputs)) 0) as [H|H];
    [|exact H].
  rewrite H.
  pose proof (fold_max_upper (observed_scores (input :: inputs)) 0) as Hu.
  pose proof (observed_scores_nonneg (input :: inputs)) as Hn.
  rewrite H in Hu. cbn [observed_scores map] in *.
  inversion Hu; inversion Hn; subst. left. lia.
Qed.

Lemma run_scam_detected cfg session inputs :
  scam_detected (fst (run cfg session inputs))
  = scam_detected session || existsb verdict (requests_of inputs).
Proof.
  revert session. induction inputs as [|[payload net] inputs IH]; intros session.
  - cbn. rewrite orb_false_r. reflexivity.
  - rewrite run_cons. cbn [fst requests_of map existsb].
    rewrite IH, turn_scam_detected. rewrite orb_assoc. reflexivity.
Qed.

Lemma run_detection_details cfg session inputs :
  detection_details (fst (run cfg session inputs))
  = if scam_detected session then detection_details session
    else match first_crossing (next_count session) (requests_of inputs) with
         | Some d => Some d
         | None => detection_details session
         end.
Proof.
  revert session. induction inputs as [|[payload net] inputs IH]; intros session.
  - cbn. destruct (scam_detected session); reflexivity.
  - rewrite run_cons. cbn [fst requests_of map first_crossing].
    rewrite IH, turn_scam_detected, turn_detection_details.
    destruct (scam_detected session); cbn [orb]; [reflexivity|].
    destruct (verdict payload); [reflexivity|].
    unfold next_count. rewrite turn_messages, length_app. cbn [length].
    replace (Z.of_nat (length (messages session) + 1) + 1)
      with (Z.of_nat (length (messages session)) + 1 + 1) by lia.
    reflexivity.
Qed.

Lemma run_messages_length cfg session inputs :
  length (messages (fst (run cfg session inputs)))
  = (length (messages session) + length inputs)%nat.
Proof.
  revert session. induction inputs as [|[payload net] inputs IH]; intros session.
  - cbn. lia.
  - rewrite run_cons. cbn [fst length]. rewrite IH, turn_messages, length_app.
    cbn [length]. lia.
Qed.

(** Once a report is accepted no later turn dispatches: a run counts at
    most one accepted report, and none from a concluded session. *)
Lemma successes_at_most_once cfg session inputs :
  (successes inputs (snd (run cfg session inputs))
   <= if engagement_concluded session then 0 else 1)%nat.
Proof.
  revert session. induction inputs as [|[payload net] inputs IH]; intros session.
  - cbn. destruct (engagement_concluded session); lia.
  - rewrite run_cons. cbn [snd successes].
    specialize (IH (session_after cfg session payload net)).
    rewrite turn_concluded in IH. rewrite turn_reports.
    unfold dispatches in *.
    destruct (engagement_concluded session); cbn [negb orb andb] in *.
    + rewrite andb_false_r. destruct (delivered net); lia.
    + rewrite andb_true_r in *.
      destruct (verdict payload && (MAX_MESSAGES_PER_SESSION cfg <=? next_count session)%Z);
        destruct (delivered net); cbn [andb] in IH; lia.
Qed.

(** A failed dispatch leaves the session open, an accepted one closes it. *)
Lemma dispatch_outcome cfg session payload net :
  engagement_concluded session = false ->
  dispatches cfg session payload = true ->
  engagement_concluded (session_after cfg session payload net) = delivered net.
Proof.
  intros Hc Hd. rewrite turn_concluded, Hc, Hd. reflexivity.
Qed.

(** A concluded session stays concluded and dispatches nothing. *)
Lemma concluded_is_terminal cfg session payload net :
  engagement_concluded session = true ->
  engagement_concluded (session_after cfg session payload net) = true /\
  reports_of cfg session payload net = [].
Proof.
  intros Hc. split.
  - rewrite turn_concluded, Hc. reflexivity.
  - pose proof (turn_reports cfg session payload net) as H.
    unfold dispatches in H. rewrite Hc, andb_false_r in H.
    destruct (reports_of cfg session payload net); [reflexivity | discriminate].
Qed.

(** ** The request handler on the store *)

(** A request without a valid key changes nothing and dispatches nothing. *)
Lemma analyze_message_unauthorized cfg store now x_api_key payload net code :
  authenticate_request cfg x_api_key = Some code ->
  analyze_message cfg store now x_api_key payload net
  = (store, HTTPException code, []).
Proof. intros H. unfold analyze_message. rewrite H. reflexivity. Qed.

(** An authorized request is one turn of [process] on the session found
    or created after the sweep, and the store keeps the outcome. *)
Lemma analyze_message_turn cfg store now x_api_key payload net :
  authenticate_request cfg x_api_key = None ->
  let swept := cleanup_old_sessions cfg now store in
  let session := snd (get_or_create_session swept (req_sessionId payload) now) in
  let '(store', response, reports) :=
    analyze_message cfg store now x_api_key payload net in
  store' !! req_sessionId payload
  = Some (session_after cfg session payload net) /\
  response = response_of cfg session payload net /\
  reports = reports_of cfg session payload net.
Proof.
  intros H. unfold analyze_message, session_after, response_of, reports_of.
  rewrite H. cbv zeta.
  destruct (get_or_create_session _ _ _) as [store1 session]. cbn [snd].
  destruct (process cfg session payload net) as [[s' r] reps]. cbn [fst snd].
  rewrite lookup_insert_eq. repeat split.
Qed.

(** ** The claims about the engagement state machine *)

(** C1.  The claim: a message is ignored only while the session has not
    been detected; in a detected session every message is answered.  The
    handler returns "ignored" for every message that scores below the
    threshold, whatever the session's state: in the conversation of
    test_multi_turn the first two messages are answered and mark the
    session detected, and the third, which scores 2, is ignored. *)
Theorem C1_detected_session_still_ignores :
  let warmed :=
    fst (run settings (initialize_session 0)
           [(request1, Responded 200); (request2, Responded 200)]) in
  scam_detected warmed = true /\
  score_of request3 = 2 /\
  response_of settings warmed request3 (Responded 200)
  = AgentReplyModel "ignored" None /\
  agent_replies (session_after settings warmed request3 (Responded 200))
  = agent_replies warmed.
Proof. vm_compute. repeat split; reflexivity. Qed.

(** C2.  The claim: after a failed dispatch a subsequent message of the
    session triggers another attempt.  Twenty scoring messages reach the
    cap and the twentieth turn dispatches once; the dispatch times out and
    the session stays open.  A following message that scores below the
    threshold is ignored and dispatches nothing; a following message that
    scores dispatches again. *)
Theorem C2_quiet_message_does_not_retry :
  let capped := fst (run settings (initialize_session 0) capped_inputs) in
  outline (snd (run settings (initialize_session 0) capped_inputs))
  = repeat ("success", 0%nat) 19 ++ [("success", 1%nat)] /\
  engagement_concluded capped = false /\
  scam_detected capped = true /\
  response_of settings capped quiet_request (Responded 200)
  = AgentReplyModel "ignored" None /\
  reports_of settings capped quiet_request (Responded 200) = [] /\
  length (reports_of settings capped otp_request (Responded 200)) = 1%nat.
Proof. vm_compute. repeat split; reflexivity. Qed.

(** C3.  Turn over turn the score ceiling is the maximum of itself and
    the new score and never drops, [scam_detected] only goes from false to
    true, and the detection details change only on the turn that detects.
    Over a whole session the ceiling is the largest score observed, and
    the details are those of the first message whose score reaches the
    threshold. *)
Theorem C3_score_ceiling_and_detection_snapshot :
  forall cfg now session payload net input inputs,
    let after := session_after cfg session payload net in
    let final := fst (run cfg (initialize_session now) (input :: inputs)) in
    scam_score after = Z.max (scam_score session) (score_of payload) /\
    scam_score session <= scam_score after /\
    scam_detected after = scam_detected session || verdict payload /\
    detection_details after
    = (if scam_detected session then detection_details session
       else if verdict payload
            then Some (snapshot payload (next_count session))
            else detection_details session) /\
    In (scam_score final) (observed_scores (input :: inputs)) /\
    Forall (fun x => x <= scam_score final) (observed_scores (input :: inputs)) /\
    scam_detected final = existsb verdict (requests_of (input :: inputs)) /\
    detection_details final = first_crossing 1 (requests_of (input :: inputs)).
Proof.
  intros cfg now session payload net input inputs after final.
  subst after final.
  rewrite turn_scam_score, turn_scam_detected, turn_detection_details,
    run_scam_score, run_scam_detected, run_detection_details.
  cbn [scam_score scam_detected detection_details initialize_session orb].
  repeat split.
  - lia.
  - apply ceiling_attained.
  - apply fold_max_upper.
  - unfold next_count. cbn [messages initialize_session length].
    change (Z.of_nat 0 + 1) with 1.
    destruct (first_crossing 1 (requests_of (input :: inputs))); reflexivity.
Qed.

(** C4.  The claim: the reply of a success turn is selected for the
    latest inbound message, with the session's own [agent_replies] as the
    memory against repetition.  The handler calls the history-based
    [generate_agent_reply] on the history of the request, which does not
    hold the latest message, and never reads [agent_replies].  In the
    conversation of test_multi_turn the second message asks for the card
    number and the CVV and is answered about the link of the first.  Three
    messages pressing one link get the same reply twice over, although
    the session has it in [agent_replies].  The reply follows the last
    scammer message of the history and the last three user messages of
    the history.  So no function of the latest text and of
    [agent_replies] gives the reply; it is appended all the same. *)
Theorem C4_reply_ignores_message_and_memory :
  let after1 :=
    fst (run settings (initialize_session 0) [(request1, Responded 200)]) in
  let after2 :=
    fst (run settings (initialize_session 0)
           [(link_request1, Responded 200); (link_request2, Responded 200)]) in
  (verdict request2 = true /\
   agent_replies after1 = ["Why is my account being blocked?"] /\
   selectReply (text (message request2)) (agent_replies after1)
   = Some "You're asking for my CVV? That's the security code, right?" /\
   response_of settings after1 request2 (Responded 200)
   = AgentReplyModel "success" (Some "Can you explain what this link is for?")) /\
  (verdict link_request3 = true /\
   agent_replies after2
   = ["Why is my account being blocked?";
      "Can you explain what this link is for?"] /\
   selectReply (text (message link_request3)) (agent_replies after2)
   = Some "Is this link safe to click? Where does it take me?" /\
   response_of settings after2 link_request3 (Responded 200)
   = AgentReplyModel "success" (Some "Can you explain what this link is for?") /\
   agent_replies (session_after settings after2 link_request3 (Responded 200))
   = ["Why is my account being blocked?";
      "Can you explain what this link is for?";
      "Can you explain what this link is for?"]) /\
  response_of settings after1 otp_after_two (Responded 200)
  = AgentReplyModel "success"
      (Some "You're asking for my CVV? That's the security code, right?") /\
  response_of settings (initialize_session 0) otp_after_long (Responded 200)
  = AgentReplyModel "success" (Some "Can you explain what this link is for?") /\
  (forall cfg session payload net,
     generate_agent_reply (conversationHistory payload)
     = Ok (reply_for payload) /\
     response_of cfg session payload net
     = (if verdict payload
        then AgentReplyModel "success" (Some (reply_for payload))
        else AgentReplyModel "ignored" None) /\
     agent_replies (session_after cfg session payload net)
     = (if verdict payload then agent_replies session ++ [reply_for payload]
        else agent_replies session)) /\
  ~ (exists strategist : string -> list string -> string,
        forall cfg session payload net reply,
          response_of cfg session payload net
          = AgentReplyModel "success" (Some reply) ->
          reply = strategist (text (message payload)) (agent_replies session)).
Proof.
  intros after1 after2. subst after1 after2.
  split; [vm_compute; repeat split; reflexivity|].
  split; [vm_compute; repeat split; reflexivity|].
  split; [vm_compute; reflexivity|].
  split; [vm_compute; reflexivity|].
  split.
  - intros cfg session payload net.
    split; [apply generate_agent_reply_ok|].
    split; [apply turn_response | apply turn_agent_replies].
  - intros [strategist H].
    pose proof (H settings (initialize_session 0) otp_request (Responded 200)
                  "Why is my account being blocked?" eq_refl) as H1.
    pose proof (H settings (initialize_session 0) otp_after_link (Responded 200)
                  "Can you explain what this link is for?" eq_refl) as H2.
    cbn [otp_request otp_after_link message text] in H1, H2.
    rewrite <- H1 in H2. discriminate H2.
Qed.

Lemma escalation_without_pressure msg hist st :
  any_in (URGENCY_KEYWORDS ++ THREAT_KEYWORDS) msg = false ->
  escalation msg hist st = st.
Proof.
  intros H. unfold escalation. destruct hist as [|m0 hist0]; [reflexivity|].
  rewrite H. generalize (last_n 3 (m0 :: hist0)). intros l.
  induction l as [|m l IH]; cbn [fold_left]; [reflexivity|].
  destruct (_ && _); exact IH.
Qed.

(** C7.  The verdict is [score >= 4]; the bank message is a scam with
    the three reasons and a score of at least 4; the bus message is not a
    scam, whatever the history. *)
Theorem C7_scorer_verdict_and_examples :
  (forall message hist,
     fst (fst (detect_scam message hist))
     = (4 <=? snd (detect_scam message hist))%Z) /\
  fst (fst (detect_scam bank_message [])) = true /\
  4 <= snd (detect_scam bank_message []) /\
  In "financial context" (snd (fst (detect_scam bank_message []))) /\
  In "urgency/threat tactics" (snd (fst (detect_scam bank_message []))) /\
  In "external link detected" (snd (fst (detect_scam bank_message []))) /\
  (forall hist, fst (fst (detect_scam bus_message hist)) = false).
Proof.
  split; [reflexivity|].
  split; [vm_compute; reflexivity|].
  split; [vm_compute; discriminate|].
  split; [vm_compute; tauto|].
  split; [vm_compute; tauto|].
  split; [vm_compute; tauto|].
  intros hist. unfold detect_scam.
  rewrite escalation_without_pressure by (vm_compute; reflexivity).
  vm_compute. reflexivity.
Qed.

(** C8.  For every message and every list of own replies the Strategist
    returns, without raising, the reply of the specification: the first
    template, in the list of the first category whose marker occurs, that
    is not among the last three own replies, or the first template of the
    category when all of them are.  Replies older than the last three do
    not count: a template that was used four replies ago is chosen
    again.  Of two markers in a message the one declared first decides,
    and a message without marker is answered from the default list. *)
Theorem C8_reply_strategist :
  (forall current_message conversation_history previous_replies,
     exists reply,
       selectReply current_message previous_replies = Some reply /\
       get_agent_reply current_message conversation_history previous_replies
       = Ok reply) /\
  (forall current_message conversation_history older r1 r2 r3,
     get_agent_reply current_message conversation_history
       (older ++ [r1; r2; r3])
     = get_agent_reply current_message conversation_history [r1; r2; r3]) /\
  get_agent_reply "Share the OTP" []
    ["Is it safe to share OTP? What will you use it for?";
     "Can someone misuse my OTP if I share it?"]
  = Ok "Why do you need my OTP? I've heard it's dangerous." /\
  get_agent_reply "Share the OTP" []
    ["Is it safe to share OTP? What will you use it for?";
     "Why do you need my OTP? I've heard it's dangerous.";
     "Can someone misuse my OTP if I share it?"]
  = Ok "Is it safe to share OTP? What will you use it for?" /\
  get_agent_reply "Share the OTP" []
    ["Is it safe to share OTP? What will you use it for?";
     "Can you explain what this link is for?";
     "Is this link safe to click? Where does it take me?";
     "Why should I click on this? What happens next?"]
  = Ok "Is it safe to share OTP? What will you use it for?" /\
  get_agent_reply "Share the OTP" []
    ["Why do you need my OTP? I've heard it's dangerous.";
     "Is it safe to share OTP? What will you use it for?";
     "Can you explain what this link is for?";
     "Is this link safe to click? Where does it take me?"]
  = Ok "Why do you need my OTP? I've heard it's dangerous." /\
  get_agent_reply "Click the link and share the OTP for the UPI payment" [] []
  = Ok "I'm not sure what UPI is, can you explain?" /\
  get_agent_reply "Click the link and share the OTP" [] []
  = Ok "Is it safe to share OTP? What will you use it for?" /\
  get_agent_reply "Good morning, how are you?" [] []
  = Ok "Can you explain that more clearly?".
Proof.
  split; [exact get_agent_reply_spec|].
  split.
  - intros current_message conversation_history older r1 r2 r3.
    unfold get_agent_reply. rewrite last_n_three. reflexivity.
  - repeat split; vm_compute; reflexivity.
Qed.

(** C10.  Every turn, ignored or not, appends the message and folds its
    score into the ceiling; a report is dispatched exactly on a scoring
    turn of an open session whose message count, ignored messages
    included, has reached the cap.  After nineteen ignored messages the
    first scoring message is the twentieth and dispatches. *)
Theorem C10_ignored_messages_count :
  forall cfg session payload net inputs,
    let after := session_after cfg session payload net in
    messages after = messages session ++ [message payload] /\
    scam_score after = Z.max (scam_score session) (score_of payload) /\
    response_of cfg session payload net
    = (if verdict payload
       then AgentReplyModel "success" (Some (reply_for payload))
       else AgentReplyModel "ignored" None) /\
    length (reports_of cfg session payload net)
    = (if verdict payload
          && (MAX_MESSAGES_PER_SESSION cfg
              <=? Z.of_nat (length (messages session)) + 1)%Z
          && negb (engagement_concluded session)
       then 1%nat else 0%nat) /\
    length (messages (fst (run cfg session inputs)))
    = (length (messages session) + length inputs)%nat /\
    outline (snd (run settings (initialize_session 0) quiet_then_scam))
    = repeat ("ignored", 0%nat) 19 ++ [("success", 1%nat)].
Proof.
  intros cfg session payload net inputs after. subst after.
  split; [apply turn_messages|].
  split; [apply turn_scam_score|].
  split; [apply turn_response|].
  split; [apply turn_reports|].
  split; [apply run_messages_length|].
  vm_compute. reflexivity.
Qed.

(** ** Merging intelligence *)

Lemma merge_key_lookup (acc : gmap string (list string)) k v key :
  merge_key acc (k, v) !! key
  = if decide (k = key)
    then (fun old => list_of_set (old ++ v)) <$> acc !! key
    else acc !! key.
Proof.
  unfold merge_key. cbn [fst snd].
  destruct (decide (k = key)) as [->|Hne].
  - destruct (acc !! key) as [old|] eqn:E.
    + rewrite lookup_insert_eq. reflexivity.
    + rewrite E. reflexivity.
  - destruct (acc !! k) as [old|]; [|reflexivity].
    rewrite lookup_insert_ne by exact Hne. reflexivity.
Qed.

Lemma fold_merge_lookup (l : list (string * list string))
  (acc : gmap string (list string)) key :
  NoDup (l.*1) ->
  fold_left merge_key l acc !! key
  = match acc !! key with
    | None => None
    | Some old =>
        Some match (list_to_map l : gmap string (list string)) !! key with
             | Some v => list_of_set (old ++ v)
             | None => old
             end
    end.
Proof.
  revert acc. induction l as [|[k v] l IH]; intros acc Hnd.
  - cbn. rewrite lookup_empty. destruct (acc !! key); reflexivity.
  - cbn [fold_left]. rewrite fmap_cons in Hnd. cbn [fst] in Hnd.
    apply NoDup_cons in Hnd as [Hk Hnd].
    rewrite IH by exact Hnd. rewrite merge_key_lookup.
    cbn [list_to_map foldr uncurry]. destruct (decide (k = key)) as [->|Hne].
    + rewrite lookup_insert_eq.
      rewrite (not_elem_of_list_to_map_1 l key Hk).
      destruct (acc !! key); reflexivity.
    + rewrite lookup_insert_ne by exact Hne. reflexivity.
Qed.

(** The merge loop, key by key: a category of the session takes the
    union with the bundle's entries; a key the session lacks is skipped. *)
Lemma merge_lookup (session_intelligence bundle : gmap string (list string)) key :
  merge_intelligence session_intelligence bundle !! key
  = match session_intelligence !! key with
    | None => None
    | Some old =>
        Some match bundle !! key with
             | Some v => list_of_set (old ++ v)
             | None => old
             end
    end.
Proof.
  unfold merge_intelligence.
  rewrite fold_merge_lookup by apply NoDup_fst_map_to_list.
  rewrite list_to_map_to_list. reflexivity.
Qed.

Lemma list_of_set_set (xs : list string) :
  (list_to_set (list_of_set xs) : gset string) = list_to_set xs.
Proof. unfold list_of_set. apply list_to_set_elements_L. Qed.

Lemma category_merge (session_intelligence bundle : gmap string (list string)) key :
  category key (merge_intelligence session_intelligence bundle)
  = match session_intelligence !! key with
    | Some _ => category key session_intelligence ∪ category key bundle
    | None => ∅
    end.
Proof.
  unfold category, Extractor.get. rewrite merge_lookup.
  destruct (session_intelligence !! key) as [old|]; cbn; [|reflexivity].
  destruct (bundle !! key) as [v|]; cbn.
  - rewrite list_of_set_set, list_to_set_app_L. reflexivity.
  - symmetry. apply (right_id_L ∅ (∪)).
Qed.

Lemma merge_dom (session_intelligence bundle : gmap string (list string)) :
  dom (merge_intelligence session_intelligence bundle) = dom session_intelligence.
Proof.
  apply set_eq. intros key. rewrite !elem_of_dom, merge_lookup.
  destruct (session_intelligence !! key); split; intros [x Hx]; eauto; discriminate.
Qed.

(** C9.  Merging a bundle a second time changes no category, a merge
    keeps every entry and every key it found, and so does every turn of
    the handler. *)
Theorem C9_merge_idempotent_and_growing :
  forall (session_intelligence bundle : gmap string (list string))
         (key : string) cfg session payload net,
    category key
      (merge_intelligence (merge_intelligence session_intelligence bundle) bundle)
    = category key (merge_intelligence session_intelligence bundle) /\
    category key session_intelligence
    ⊆ category key (merge_intelligence session_intelligence bundle) /\
    dom (merge_intelligence session_intelligence bundle)
    = dom session_intelligence /\
    category key (intelligence session)
    ⊆ category key (intelligence (session_after cfg session payload net)).
Proof.
  intros s b key cfg session payload net.
  assert (Hgrow : forall s0 b0 : gmap string (list string),
             category key s0 ⊆ category key (merge_intelligence s0 b0)).
  { intros s0 b0. rewrite category_merge.
    destruct (s0 !! key) eqn:E; [apply union_subseteq_l|].
    unfold category, Extractor.get. rewrite E. reflexivity. }
  split; [|split; [apply Hgrow | split; [apply merge_dom|]]].
  - rewrite (category_merge (merge_intelligence s b) b), merge_lookup.
    destruct (s !! key) eqn:E.
    + rewrite category_merge, E.
      rewrite <- (assoc_L (∪)), (idemp_L (∪) (category key b)). reflexivity.
    + rewrite category_merge, E. reflexivity.
  - rewrite turn_intelligence. destruct (verdict payload); [apply Hgrow | reflexivity].
Qed.

(** ** Strings and digits *)

Lemma digit_is_word c : is_digit c = true -> is_word c = true.
Proof.
  intros H. unfold is_word. rewrite H.
  destruct (is_alpha c); reflexivity.
Qed.

Lemma digit_not_space c : is_digit c = true -> is_space c = false.
Proof.
  destruct c as [b0 b1 b2 b3 b4 b5 b6 b7].
  destruct b0, b1, b2, b3, b4, b5, b6, b7; vm_compute; intros H;
    first [reflexivity | discriminate H].
Qed.

Lemma digit_lower c : is_digit c = true -> lower_char c = c.
Proof.
  destruct c as [b0 b1 b2 b3 b4 b5 b6 b7].
  destruct b0, b1, b2, b3, b4, b5, b6, b7; vm_compute; intros H;
    first [reflexivity | discriminate H].
Qed.

Lemma digits_lower s : all_digits s = true -> lower s = s.
Proof.
  induction s as [|c t IH]; cbn; [reflexivity|].
  intros H. apply andb_true_iff in H as [Hc Ht].
  rewrite (digit_lower c Hc), (IH Ht). reflexivity.
Qed.

Lemma digits_rstrip s : all_digits s = true -> rstrip s = s.
Proof.
  induction s as [|c t IH]; cbn; [reflexivity|].
  intros H. apply andb_true_iff in H as [Hc Ht].
  rewrite (IH Ht). destruct t; [|reflexivity].
  rewrite (digit_not_space c Hc). reflexivity.
Qed.

Lemma digits_strip s : all_digits s = true -> strip (lower s) = s.
Proof.
  intros H. rewrite (digits_lower s H). unfold strip.
  destruct s as [|c t]; [reflexivity|].
  cbn [lstrip]. cbn in H. apply andb_true_iff in H as [Hc Ht].
  rewrite (digit_not_space c Hc). apply digits_rstrip.
  cbn. rewrite Hc, Ht. reflexivity.
Qed.

Lemma string_app_cons c (a b : string) :
  (String c a ++ b)%string = String c (a ++ b)%string.
Proof. reflexivity. Qed.

Lemma string_app_nil (b : string) : (EmptyString ++ b)%string = b.
Proof. reflexivity. Qed.

Lemma string_app_assoc (a b c : string) :
  ((a ++ b) ++ c)%string = (a ++ b ++ c)%string.
Proof.
  induction a as [|x a IH]; rewrite ?string_app_nil, ?string_app_cons;
    [reflexivity | rewrite IH; reflexivity].
Qed.

Lemma string_app_length (a b : string) :
  String.length (a ++ b)%string = (String.length a + String.length b)%nat.
Proof.
  induction a as [|x a IH]; rewrite ?string_app_nil, ?string_app_cons;
    cbn [String.length Nat.add]; [reflexivity | rewrite IH; reflexivity].
Qed.

Lemma take_app_exact (a b : string) : take (String.length a) (a ++ b)%string = a.
Proof.
  induction a as [|x a IH]; rewrite ?string_app_nil, ?string_app_cons;
    cbn [String.length take]; [destruct b | rewrite IH]; reflexivity.
Qed.

Lemma drop_app_exact (a b : string) : drop (String.length a) (a ++ b)%string = b.
Proof.
  induction a as [|x a IH]; rewrite ?string_app_nil, ?string_app_cons;
    cbn [String.length drop]; [destruct b; reflexivity | exact IH].
Qed.

Lemma last_char_app prev (a b : string) :
  last_char prev (a ++ b)%string = last_char (last_char prev a) b.
Proof.
  revert prev. induction a as [|x a IH]; intros prev;
    rewrite ?string_app_nil, ?string_app_cons; cbn [last_char];
    [reflexivity | apply IH].
Qed.

Lemma all_digits_app (a b : string) :
  all_digits (a ++ b)%string = all_digits a && all_digits b.
Proof.
  induction a as [|x a IH]; rewrite ?string_app_nil, ?string_app_cons;
    cbn [all_digits andb]; [reflexivity|].
  rewrite IH, andb_assoc. reflexivity.
Qed.

Lemma digits_last_is_word prev c t :
  all_digits (String c t) = true -> word_opt (last_char prev (String c t)) = true.
Proof.
  revert prev c. induction t as [|y t IH]; intros prev c H;
    cbn [all_digits last_char word_opt] in *.
  - apply digit_is_word. apply andb_true_iff in H as [Hc _]. exact Hc.
  - apply andb_true_iff in H as [_ Ht]. apply (IH (Some c) y). exact Ht.
Qed.

(** Two splittings of one string: one of the left parts is a prefix of
    the other. *)
Lemma string_app_split (a x d r : string) :
  (a ++ x)%string = (d ++ r)%string ->
  (exists m, a = (d ++ m)%string /\ r = (m ++ x)%string) \/
  (exists m, d = (a ++ m)%string /\ x = (m ++ r)%string).
Proof.
  revert d. induction a as [|c a IH]; intros d H.
  - right. exists d. split; [reflexivity | exact H].
  - destruct d as [|c' d].
    + left. exists (String c a). split; [reflexivity | symmetry; exact H].
    + rewrite !string_app_cons in H. injection H as Hc Ht. subst c'.
      destruct (IH d Ht) as [[m [Ha Hr]]|[m [Hd Hx]]].
      * left. exists m. subst a. split; [reflexivity | exact Hr].
      * right. exists m. subst d. split; [reflexivity | exact Hx].
Qed.

(** ** The matcher consumes a prefix of the text *)

(** [c'] lies [d] further in the text than [c]. *)
Lemma advance_refl c :
  exists d, rest c = (d ++ rest c)%string /\
            eaten c = (eaten c + String.length d)%nat.
Proof. exists EmptyString. rewrite string_app_nil. cbn. split; [reflexivity | lia]. Qed.

Lemma run_advance r : forall k c c',
  (forall c1 c2, k c1 = Some c2 ->
     exists d, rest c1 = (d ++ rest c2)%string /\
               eaten c2 = (eaten c1 + String.length d)%nat) ->
  Regex.run r k c = Some c' ->
  exists d, rest c = (d ++ rest c')%string /\
            eaten c' = (eaten c + String.length d)%nat.
Proof.
  induction r as [|p| |r1 IH1 r2 IH2|r1 IH1 r2 IH2|r1 IH1 lo hi];
    intros k c c' Hk H; cbn [Regex.run] in H.
  - apply Hk. exact H.
  - destruct (rest c) as [|x t] eqn:Er; [discriminate H|].
    destruct (p x); [|discriminate H].
    apply Hk in H as [d [H1 H2]]. cbn [rest eaten] in *.
    exists (String x d). rewrite string_app_cons, <- H1.
    cbn [String.length]. split; [reflexivity | lia].
  - destruct (at_boundary c); [|discriminate H]. apply Hk. exact H.
  - apply (IH1 (fun c1 => Regex.run r2 k c1)); [|exact H].
    intros c1 c2 H12. apply (IH2 k); assumption.
  - unfold orelse in H. destruct (Regex.run r1 k c) eqn:E.
    + injection H as <-. apply (IH1 k); assumption.
    + apply (IH2 k); assumption.
  - revert H.
    generalize (match hi with Some h => h | None => String.length (rest c) end).
    intros budget. revert lo c c'.
    induction budget as [|b IHb]; intros lo c c' H; cbn [loop] in H.
    + destruct lo; [apply Hk; exact H | discriminate H].
    + unfold orelse in H.
      destruct (Regex.run r1 (loop (Regex.run r1) k b (Nat.pred lo)) c) eqn:E.
      * injection H as <-.
        apply (IH1 (loop (Regex.run r1) k b (Nat.pred lo))); [|exact E].
        intros c1 c2 H12. apply (IHb (Nat.pred lo)). exact H12.
      * destruct lo; [apply Hk; exact H | discriminate H].
Qed.

(** A match at a position is a prefix of the text that remains. *)
Lemma match_at_prefix r prev s n :
  match_at r prev s = Some n ->
  exists d t, s = (d ++ t)%string /\ n = String.length d.
Proof.
  unfold match_at.
  destruct (Regex.run r Some (Cursor prev s 0)) as [c'|] eqn:E; [|discriminate].
  intros H. injection H as <-.
  apply run_advance in E as [d [H1 H2]].
  - exists d, (rest c'). cbn [rest eaten] in *. split; assumption.
  - intros c1 c2 H12. injection H12 as <-. apply advance_refl.
Qed.

(** The scan of [findall] does not depend on its fuel once the fuel
    exceeds the length of the text. *)
Lemma findall_fuel r fuel : forall fuel' prev s,
  (String.length s < fuel)%nat -> (String.length s < fuel')%nat ->
  findall_from fuel r prev s = findall_from fuel' r prev s.
Proof.
  induction fuel as [|fuel IH]; intros fuel' prev s Hf Hf'; [lia|].
  destruct fuel' as [|fuel']; [lia|]. cbn [findall_from].
  assert (Hstep : match s with
                  | String c t => findall_from fuel r (Some c) t
                  | EmptyString => []
                  end
                  = match s with
                    | String c t => findall_from fuel' r (Some c) t
                    | EmptyString => []
                    end).
  { destruct s as [|c t]; [reflexivity|]. cbn [String.length] in *.
    apply IH; lia. }
  destruct (match_at r prev s) as [[|n]|] eqn:E;
    [rewrite Hstep; reflexivity | | exact Hstep].
  f_equal. apply match_at_prefix in E as [d [t [-> Hn]]].
  rewrite Hn, drop_app_exact. rewrite string_app_length in Hf, Hf'.
  apply IH; lia.
Qed.

(** ** The account pattern *)

Abbreviation digit_loop :=
  (loop (Regex.run (Class is_digit)) (fun c1 => Regex.run WordB Some c1)).

Lemma bank_run c :
  Regex.run BANK_ACCOUNT_REGEX Some c
  = if at_boundary c then digit_loop 18%nat 9%nat c else None.
Proof. reflexivity. Qed.

Lemma digit_step k c :
  Regex.run (Class is_digit) k c
  = match rest c with
    | String x t =>
        if is_digit x then k (Cursor (Some x) t (S (eaten c))) else None
    | EmptyString => None
    end.
Proof. reflexivity. Qed.

Lemma boundary_step c :
  Regex.run WordB Some c = if at_boundary c then Some c else None.
Proof. reflexivity. Qed.

Lemma loop_S body k b n c :
  loop body k (S b) n c
  = orelse (body (loop body k b (Nat.pred n)) c)
      (match n with O => k c | S _ => None end).
Proof. reflexivity. Qed.

Lemma digit_loop_stop n c c' :
  match n with O => Regex.run WordB Some c | S _ => None end = Some c' ->
  c' = c.
Proof.
  destruct n; [|discriminate]. rewrite boundary_step.
  destruct (at_boundary c); [|discriminate]. intros H. injection H as <-. reflexivity.
Qed.

(** What the greedy loop consumed is a run of digits. *)
Lemma digit_loop_sound b : forall n c c',
  digit_loop b n c = Some c' ->
  exists d,
    rest c = (d ++ rest c')%string /\ all_digits d = true /\
    eaten c' = (eaten c + String.length d)%nat /\
    before c' = last_char (before c) d.
Proof.
  induction b as [|b IH]; intros n c c' H; cbn [loop] in H.
  - apply digit_loop_stop in H. subst c'. exists EmptyString.
    cbn [String.length last_char all_digits]. rewrite string_app_nil.
    repeat split. lia.
  - unfold orelse in H.
    destruct (Regex.run (Class is_digit) (digit_loop b (Nat.pred n)) c)
      as [c1|] eqn:E.
    + injection H as <-. rewrite digit_step in E.
      destruct (rest c) as [|x t] eqn:Er; [discriminate E|].
      destruct (is_digit x) eqn:Ed; [|discriminate E].
      apply IH in E as [d [H1 [H2 [H3 H4]]]]. cbn [rest eaten before] in *.
      exists (String x d). rewrite string_app_cons, <- H1.
      cbn [all_digits String.length last_char]. rewrite Ed, H2, H3, H4.
      repeat split. lia.
    + apply digit_loop_stop in H. subst c'. exists EmptyString.
      cbn [String.length last_char all_digits]. rewrite string_app_nil.
      repeat split. lia.
Qed.

(** On a run of digits that ends at a word boundary and fits the bounds
    the greedy loop consumes the whole run. *)
Lemma digit_loop_complete tok : forall b n prev post e,
  all_digits tok = true ->
  (String.length tok <= b)%nat -> (n <= String.length tok)%nat ->
  word_opt prev = true -> word_opt (head_char post) = false ->
  digit_loop b n (Cursor prev (tok ++ post)%string e)
  = Some (Cursor (last_char prev tok) post (e + String.length tok)).
Proof.
  induction tok as [|a tok IH]; intros b n prev post e Hd Hb Hn Hp Hq.
  - cbn [String.length] in *. rewrite string_app_nil, Nat.add_0_r.
    cbn [last_char]. assert (n = 0%nat) as -> by lia.
    assert (Hstop : Regex.run WordB Some (Cursor prev post e)
                    = Some (Cursor prev post e)).
    { rewrite boundary_step. unfold at_boundary. cbn [before rest].
      rewrite Hp, Hq. reflexivity. }
    destruct b as [|b]; cbn [loop]; [exact Hstop|].
    unfold orelse. rewrite digit_step. cbn [rest].
    destruct post as [|x t]; [exact Hstop|].
    destruct (is_digit x) eqn:Ex; [|exact Hstop].
    cbn [head_char word_opt] in Hq. rewrite (digit_is_word x Ex) in Hq.
    discriminate Hq.
  - cbn [String.length all_digits] in *. apply andb_true_iff in Hd as [Ha Hd].
    destruct b as [|b]; [lia|]. cbn [loop]. unfold orelse at 1.
    rewrite string_app_cons, digit_step. cbn [rest eaten]. rewrite Ha.
    rewrite (IH b (Nat.pred n) (Some a) post (S e)); try assumption; try lia.
    + cbn [last_char]. do 2 f_equal. lia.
    + cbn [word_opt]. apply digit_is_word. exact Ha.
Qed.

Lemma bank_match_token prev tok post :
  all_digits tok = true ->
  (9 <= String.length tok <= 18)%nat ->
  word_opt prev = false -> word_opt (head_char post) = false ->
  match_at BANK_ACCOUNT_REGEX prev (tok ++ post)%string
  = Some (String.length tok).
Proof.
  intros Hd Hlen Hp Hq. unfold match_at. rewrite bank_run.
  destruct tok as [|a tok]; [cbn in Hlen; lia|].
  cbn [all_digits String.length] in *. apply andb_true_iff in Hd as [Ha Hd].
  rewrite string_app_cons. unfold at_boundary. cbn [before rest head_char word_opt].
  rewrite Hp, (digit_is_word a Ha). cbn [xorb].
  rewrite (loop_S _ _ 17 9). unfold orelse at 1.
  rewrite digit_step. cbn [rest eaten]. rewrite Ha.
  rewrite (digit_loop_complete tok 17 (Nat.pred 9) (Some a) post 1);
    try assumption; try (cbn [Nat.pred]; lia).
  - reflexivity.
  - cbn [word_opt]. apply digit_is_word. exact Ha.
Qed.

Lemma bank_match_sound prev s n :
  match_at BANK_ACCOUNT_REGEX prev s = Some n ->
  exists d r, s = (d ++ r)%string /\ all_digits d = true /\ n = String.length d.
Proof.
  unfold match_at. rewrite bank_run.
  destruct (at_boundary (Cursor prev s 0)); [|discriminate].
  destruct (digit_loop 18%nat 9%nat (Cursor prev s 0)) as [c'|] eqn:E; [|discriminate].
  intros H. injection H as <-.
  apply digit_loop_sound in E as [d [H1 [H2 [H3 _]]]]. cbn [rest eaten] in *.
  exists d, (rest c'). repeat split; assumption.
Qed.

(** Every match of the account pattern is a run of digits. *)
Lemma bank_findall_digits fuel : forall prev s v,
  In v (findall_from fuel BANK_ACCOUNT_REGEX prev s) -> all_digits v = true.
Proof.
  induction fuel as [|fuel IH]; intros prev s v H; cbn [findall_from] in H;
    [contradiction|].
  destruct (match_at BANK_ACCOUNT_REGEX prev s) as [[|n]|] eqn:E.
  - destruct H as [<-|H]; [reflexivity|].
    destruct s; [contradiction | eapply IH; exact H].
  - destruct H as [<-|H]; [|eapply IH; exact H].
    apply bank_match_sound in E as [d [r [-> [Hd Hn]]]].
    rewrite Hn, take_app_exact. exact Hd.
  - destruct s; [contradiction | eapply IH; exact H].
Qed.

(** The scan reaches every digit token: nothing matched before it runs
    into it, because a match is made of digits and the token is preceded
    by a character that is not one. *)
Lemma bank_findall_token fuel : forall pre prev tok post,
  all_digits tok = true ->
  (9 <= String.length tok <= 18)%nat ->
  word_opt (last_char prev pre) = false ->
  word_opt (head_char post) = false ->
  (String.length pre < fuel)%nat ->
  In tok (findall_from fuel BANK_ACCOUNT_REGEX prev (pre ++ tok ++ post)%string).
Proof.
  induction fuel as [|fuel IH]; intros pre prev tok post Hd Hlen Hp Hq Hf; [lia|].
  cbn [findall_from].
  destruct pre as [|c pre].
  - rewrite string_app_nil. cbn [last_char] in Hp.
    rewrite (bank_match_token prev tok post Hd Hlen Hp Hq).
    destruct (String.length tok) as [|n] eqn:En; [lia|].
    left. rewrite <- En. apply take_app_exact.
  - cbn [String.length] in Hf.
    assert (Hnext : In tok (findall_from fuel BANK_ACCOUNT_REGEX (Some c)
                              (pre ++ tok ++ post)%string)).
    { apply IH; try assumption. lia. }
    rewrite string_app_cons.
    destruct (match_at BANK_ACCOUNT_REGEX prev (String c (pre ++ tok ++ post)))
      as [[|n]|] eqn:E; [right; exact Hnext | | exact Hnext].
    right.
    apply bank_match_sound in E as [d [r [Hs [Hdd Hn]]]].
    rewrite <- string_app_cons in Hs.
    destruct (string_app_split _ _ _ _ Hs) as [[m [Hpre Hr]]|[m [Hdm _]]].
    + rewrite <- string_app_cons, Hs, Hn, take_app_exact, drop_app_exact, Hr.
      apply IH; try assumption.
      * rewrite <- last_char_app, <- Hpre. exact Hp.
      * assert (Hl : String.length (String c pre)
                     = (String.length d + String.length m)%nat)
          by (rewrite Hpre; apply string_app_length).
        cbn [String.length] in Hl. lia.
    + exfalso. rewrite Hdm, all_digits_app in Hdd.
      apply andb_true_iff in Hdd as [Hdp _].
      rewrite (digits_last_is_word prev c pre Hdp) in Hp. discriminate Hp.
Qed.

(** ** The bank accounts of the extractor *)

Lemma extract_context_accounts conv : forall m : gmap string (list string),
  fold_left extract_context conv m !! "bankAccounts" = m !! "bankAccounts".
Proof.
  induction conv as [|msg conv IH]; intros m; cbn [fold_left]; [reflexivity|].
  rewrite IH. unfold extract_context, extend.
  rewrite !lookup_alter_ne by discriminate. reflexivity.
Qed.

Lemma bankAccounts_eq text conv :
  bankAccounts text conv
  = clean_values
      (List.filter valid_account (findall BANK_ACCOUNT_REGEX text)).
Proof.
  unfold bankAccounts, Extractor.get, extract_intelligence, clean_intelligence.
  rewrite lookup_fmap, extract_context_accounts. unfold extend.
  rewrite !(lookup_alter_ne _ _ _ "bankAccounts") by discriminate.
  rewrite lookup_alter_eq.
  rewrite !(lookup_alter_ne _ _ _ "bankAccounts") by discriminate.
  reflexivity.
Qed.

Lemma In_clean_values x values :
  In x (clean_values values) <->
  nonempty x = true /\
  exists v, In v values /\ nonempty v = true /\ strip (lower v) = x.
Proof.
  unfold clean_values, list_of_set.
  rewrite filter_In, <- list_elem_of_In, elem_of_elements, elem_of_list_to_set,
    list_elem_of_In, in_map_iff.
  split.
  - intros [[v [Hv Hin]] Hx]. apply filter_In in Hin as [Hin Hne]. eauto.
  - intros [Hx [v [Hin [Hne Hv]]]]. split; [|exact Hx].
    exists v. split; [exact Hv|]. apply filter_In. auto.
Qed.

Lemma valid_account_spec tok :
  all_digits tok = true -> (9 <= String.length tok <= 18)%nat ->
  valid_account tok = true <-> ~ timestamp_like tok.
Proof.
  intros Hd Hlen. unfold valid_account, is_likely_timestamp, timestamp_like, parse_int.
  destruct (Nat.leb_spec 9 (String.length tok)); [|lia].
  destruct (Nat.leb_spec (String.length tok) 18); [|lia].
  cbn [andb]. rewrite Hd.
  assert (nonempty tok = true) as -> by (destruct tok; [cbn in Hlen; lia | reflexivity]).
  cbn [andb]. destruct (Nat.ltb_spec 13 (String.length tok)).
  - split; [intros _ [_ ?]; lia | reflexivity].
  - destruct (Z.ltb_spec 1000000000 (int_of_digits tok)); cbn [negb].
    + split; [discriminate | intros Hn; exfalso; apply Hn; split; [assumption | lia]].
    + split; [intros _ [? _]; lia | reflexivity].
Qed.

(** C5, as stated: every run of 9 to 18 consecutive digits is reported
    unless the timestamp heuristic applies.  The run of nine digits of
    "AC123456789" is below the threshold and is not reported: the pattern
    asks for a word boundary on both sides. *)
Lemma C5_counterexample :
  ~ (forall pre tok post conv,
       digit_run pre tok post ->
       (9 <= String.length tok <= 18)%nat ->
       (In tok (bankAccounts (pre ++ tok ++ post)%string conv)
        <-> ~ timestamp_like tok)).
Proof.
  intros H.
  specialize (H "AC" "123456789" EmptyString []).
  assert (Hin : In "123456789" (bankAccounts "AC123456789" [])).
  { apply H.
    - unfold digit_run. repeat split; reflexivity.
    - cbn. lia.
    - unfold timestamp_like. vm_compute. intros [Hlt _]. discriminate Hlt. }
  vm_compute in Hin. exact Hin.
Qed.

(** C5, amended.  For every text, a run of 9 to 18 digits that stands as
    a word of its own (no letter, digit or underscore next to it) is in
    [bankAccounts] unless its value exceeds 1,000,000,000 and it has at
    most 13 digits; in that case it is not. *)
Theorem C5_digit_token_accounts :
  forall pre tok post conv,
    digit_token pre tok post ->
    (9 <= String.length tok <= 18)%nat ->
    (In tok (bankAccounts (pre ++ tok ++ post)%string conv)
     <-> ~ timestamp_like tok).
Proof.
  intros pre tok post conv [Hd [Hp Hq]] Hlen.
  rewrite bankAccounts_eq, In_clean_values.
  assert (Hne : nonempty tok = true)
    by (destruct tok; [cbn in Hlen; lia | reflexivity]).
  rewrite <- (valid_account_spec tok Hd Hlen).
  split.
  - intros [_ [v [Hin [_ Hv]]]]. apply filter_In in Hin as [Hin Hvalid].
    unfold findall in Hin. apply bank_findall_digits in Hin.
    rewrite (digits_strip v Hin) in Hv. subst v. exact Hvalid.
  - intros Hvalid. split; [exact Hne|].
    exists tok. split; [|split; [exact Hne | apply digits_strip; exact Hd]].
    apply filter_In. split; [|exact Hvalid].
    unfold findall. apply bank_findall_token; try assumption.
    rewrite string_app_length. lia.
Qed.

(** The amended claim on a twelve-digit token below the threshold. *)
Lemma C5_digit_token_accounts_witness :
  digit_token "acct " "000123456789" " today" /\
  (9 <= String.length "000123456789" <= 18)%nat /\
  (In "000123456789" (bankAccounts "acct 000123456789 today" [])
   <-> ~ timestamp_like "000123456789").
Proof.
  assert (Ht : digit_token "acct " "000123456789" " today")
    by (unfold digit_token; repeat split; reflexivity).
  assert (Hl : (9 <= String.length "000123456789" <= 18)%nat)
    by (simpl; lia).
  split; [exact Ht|]. split; [exact Hl|].
  exact (C5_digit_token_accounts "acct " "000123456789" " today" [] Ht Hl).
Defined.

(** ** The email filter *)

(** Without a conversation the addresses are those of the text that pass
    the filter: each comes from a match that names no trusted provider,
    or the text holds a suspicious keyword. *)
Lemma text_path_filters_trusted text e :
  In e (emailAddresses text []) ->
  has_suspicious_keyword text = true \/
  exists v, In v (findall EMAIL_REGEX text) /\ e = strip (lower v) /\
            existsb (fun domain => contains domain (lower v)) TRUSTED_DOMAINS
            = false.
Proof.
  unfold emailAddresses, Extractor.get, extract_intelligence, clean_intelligence.
  cbn [fold_left]. rewrite lookup_fmap. unfold extend.
  rewrite !(lookup_alter_ne _ _ _ "emailAddresses") by discriminate.
  rewrite lookup_alter_eq.
  rewrite !(lookup_alter_ne _ _ _ "emailAddresses") by discriminate.
  change (empty_intelligence !! "emailAddresses") with (Some (@nil string)).
  cbn [fmap option_fmap option_map default from_option id app].
  intros H. apply In_clean_values in H as [_ [v [Hin [_ Hv]]]].
  apply filter_In in Hin as [Hin Hs]. unfold suspicious_email in Hs.
  apply orb_true_iff in Hs as [Hs|Hs].
  - right. exists v. split; [exact Hin|]. split; [symmetry; exact Hv|].
    apply negb_true_iff. exact Hs.
  - left. exact Hs.
Qed.

(** C6.  The claim: an address at a trusted provider is suppressed when
    the text has no suspicious keyword.  The filter is applied to the
    addresses of the text only; the addresses found in the conversation,
    which the handler ends with the current message, are added without
    it.  The text alone yields no address, the handler's call yields the
    gmail address, and the session stores it. *)
Theorem C6_trusted_address_returns_through_conversation :
  trusted_provider "bob@gmail.com" = true /\
  has_suspicious_keyword gmail_text = false /\
  emailAddresses gmail_text [] = [] /\
  emailAddresses gmail_text gmail_conversation = ["bob@gmail.com"] /\
  verdict gmail_request = true /\
  Extractor.get "emailAddresses"
    (intelligence
       (session_after settings (initialize_session 0) gmail_request
          (Responded 200)))
  = ["bob@gmail.com"].
Proof. vm_compute. repeat split; reflexivity. Qed.

(** ** The extractor on the messages of its own self-test *)

Example extractor_selftest_1 :
  let intel :=
    extract_intelligence
      "Urgent! Your account is suspended. Click https://verify-bank.com to verify. Call +919876543210 immediately!"
      [] in
  Extractor.get "phishingLinks" intel = ["https://verify-bank.com"] /\
  Extractor.get "phoneNumbers" intel = ["+919876543210"] /\
  Extractor.get "bankAccounts" intel = [] /\
  length (Extractor.get "suspiciousKeywords" intel) = 6%nat /\
  forallb (fun kw => mem kw (Extractor.get "suspiciousKeywords" intel))
    ["urgent"; "verify"; "suspended"; "immediate"; "click"; "immediately"]
  = true.
Proof. vm_compute. repeat split; reflexivity. Qed.

Example extractor_selftest_2 :
  let intel :=
    extract_intelligence
      "Please confirm your UPI: user@ybl from account 123456789012" [] in
  Extractor.get "upiIds" intel = ["user@ybl"] /\
  Extractor.get "bankAccounts" intel = [].
Proof. vm_compute. repeat split; reflexivity. Qed.

Example extractor_selftest_3 :
  Extractor.get "bitcoinAddresses"
    (extract_intelligence "Bitcoin address: 1A1z7agoat2xSfEQTEGjQjeonZvprLP5Vb" [])
  = ["1a1z7agoat2xsfeqtegjqjeonzvprlp5vb"].
Proof. vm_compute. reflexivity. Qed.

Example extractor_selftest_4 :
  let intel :=
    extract_intelligence
      "Your IP 192.168.1.1 has suspicious activity. OTP: 123456" [] in
  Extractor.get "ipAddresses" intel = ["192.168.1.1"] /\
  Extractor.get "suspiciousKeywords" intel = ["otp"].
Proof. vm_compute. repeat split; reflexivity. Qed.

(** The two sides of the timestamp heuristic. *)
Example accounts_by_length_and_value :
  bankAccounts "ref 1234567890 and 000123456789" [] = ["000123456789"] /\
  bankAccounts "card 12345678901234" [] = ["12345678901234"] /\
  bankAccounts "id 1000000000" [] = ["1000000000"] /\
  bankAccounts "id 1000000001" [] = [].
Proof. vm_compute. repeat split; reflexivity. Qed.

(** * Further properties of the code *)

Import Facts.

(** ** The scorer: score, reasons and history *)

(** The score and the reasons before the history is looked at. *)
Lemma detect_scam_split message :
  exists st, forall hist,
    detect_scam message hist
    = ((THRESHOLD <=? fst (escalation (lower message) hist st))%Z,
       snd (escalation (lower message) hist st),
       fst (escalation (lower message) hist st)).
Proof. eexists. intros hist. reflexivity. Qed.

Ltac open_let_in K :=
  match goal with
  | |- K (let x := ?v in @?b x) =>
      change (let x := v in K (b x)); intro; cbv beta
  end.

(** An invariant of the running pair (score, reasons) holds of the
    result when every step of the scorer keeps it: a step either appends a
    reason and adds points, or adds points while the urgency reason is
    already there. *)
Lemma detect_scam_invariant (J : Z -> list string -> Prop) message hist :
  J 0 [] ->
  (forall s r pts tag, 0 < pts -> J s r -> J (s + pts) (r ++ [tag])) ->
  (forall s r pts, 0 < pts -> mem "urgency/threat tactics" r = true ->
                   J s r -> J (s + pts) r) ->
  J (snd (detect_scam message hist)) (snd (fst (detect_scam message hist))).
Proof.
  intros H0 Happ Hkeep.
  pose (K := fun d : bool * list string * Z => J (snd d) (snd (fst d))).
  change (K (detect_scam message hist)).
  cbv beta delta [detect_scam].
  assert (Hfam : forall n w tag st, 0 < w -> J (fst st) (snd st) ->
                   J (fst (family n w tag st)) (snd (family n w tag st))).
  { intros n w tag st Hw Hst. unfold family.
    destruct (Z.ltb_spec 0 n); cbn [fst snd]; [|exact Hst].
    apply Happ; [nia | exact Hst]. }
  assert (Hesc : forall msg st, J (fst st) (snd st) ->
                   J (fst (escalation msg hist st)) (snd (escalation msg hist st))).
  { intros msg st Hst. unfold escalation.
    destruct hist as [|m0 hist0]; [exact Hst|].
    generalize (last_n 3 (m0 :: hist0)). intros l. revert st Hst.
    induction l as [|m l IH]; intros st Hst; cbn [fold_left]; [exact Hst|].
    apply IH.
    destruct (_ && _); [|exact Hst].
    destruct (any_in _ msg); [|exact Hst].
    cbn [fst snd]. apply Happ; [lia | exact Hst]. }
  repeat (open_let_in K;
          try match goal with
              | st := _ : (Z * list string)%type |- _ =>
                  lazymatch goal with
                  | H : J (fst st) (snd st) |- _ => fail
                  | _ =>
                      assert (J (fst st) (snd st))
                        by (unfold st;
                            first [ exact H0
                                  | apply Hfam; [lia | assumption]
                                  | apply Hesc; assumption
                                  | match goal with
                                    | |- context [(0 <? ?n)%Z] =>
                                        destruct (Z.ltb_spec 0 n);
                                        [|assumption];
                                        match goal with
                                        | |- context [negb (mem ?t ?r)] =>
                                            destruct (mem t r) eqn:?;
                                            cbn [negb fst snd];
                                            [apply Hkeep | apply Happ];
                                            try assumption; lia
                                        end
                                    end
                                  | match goal with
                                    | |- context [if ?b then _ else _] =>
                                        destruct b; [|assumption];
                                        cbn [fst snd]; apply Happ;
                                        [lia | assumption]
                                    end ])
                  end
              end).
  unfold K. cbn [fst snd]. assumption.
Qed.

Lemma mem_nonempty x l : mem x l = true -> l <> [].
Proof. destruct l; [discriminate | discriminate]. Qed.

(** X1.  The score is never negative, and it is zero exactly when no
    reason is given: every verdict [is_scam] comes with a reason. *)
Theorem detect_scam_score_and_reasons :
  forall message hist,
    0 <= snd (detect_scam message hist) /\
    (snd (fst (detect_scam message hist)) = []
     <-> snd (detect_scam message hist) = 0).
Proof.
  intros message hist.
  apply (detect_scam_invariant
           (fun s r => 0 <= s /\ (r = [] <-> s = 0)) message hist).
  - split; [lia | tauto].
  - intros s r pts tag Hp [Hs _]. split; [lia|].
    split; [intros H; destruct r; discriminate H | lia].
  - intros s r pts Hp Hm [Hs _]. split; [lia|].
    split; [intros H; apply mem_nonempty in Hm; contradiction | lia].
Qed.

Lemma last_n_length {A} n (l : list A) :
  length (last_n n l) = Nat.min n (length l).
Proof. unfold last_n. rewrite length_skipn. lia. Qed.

Lemma last_n_idem {A} n (l : list A) : last_n n (last_n n l) = last_n n l.
Proof.
  unfold last_n at 1. rewrite last_n_length.
  replace (Nat.min n (length l) - n)%nat with 0%nat by lia. reflexivity.
Qed.

Lemma last_n_nil {A} n (l : list A) : (0 < n)%nat -> last_n n l = [] -> l = [].
Proof.
  intros Hn H. apply (f_equal (@length A)) in H. rewrite last_n_length in H.
  cbn in H. destruct l; [reflexivity | cbn in H; lia].
Qed.

(** The loop over the history reads the last three messages only. *)
Lemma escalation_last_three msg hist st :
  escalation msg (last_n 3 hist) st = escalation msg hist st.
Proof.
  unfold escalation. rewrite last_n_idem.
  destruct hist as [|m hist]; [reflexivity|].
  destruct (last_n 3 (m :: hist)) eqn:E; [|reflexivity].
  apply last_n_nil in E; [discriminate E | lia].
Qed.

(** Each message of the loop adds nothing or two points. *)
Lemma escalation_bounds msg hist st :
  fst st <= fst (escalation msg hist st) <= fst st + 6.
Proof.
  unfold escalation. destruct hist as [|m hist]; [lia|].
  pose proof (last_n_length 3 (m :: hist)) as Hl.
  revert Hl. generalize (last_n 3 (m :: hist)). intros l Hl.
  assert (H : forall st0,
             fst st0
             <= fst (fold_left
                  (fun acc msg_obj =>
                     if String.eqb (sender msg_obj) "user"
                        && any_in HESITATION (lower (text msg_obj))
                     then
                       if any_in (URGENCY_KEYWORDS ++ THREAT_KEYWORDS) msg
                       then (fst acc + 2,
                             snd acc ++ ["escalation despite user hesitation"])
                       else acc
                     else acc) l st0)
             <= fst st0 + 2 * Z.of_nat (length l)).
  { clear Hl. induction l as [|x l IH]; intros st0; cbn [fold_left length]; [lia|].
    match goal with |- context [fold_left _ l ?s] => specialize (IH s) end.
    destruct (_ && _); [destruct (any_in _ msg)|]; cbn [fst snd] in IH; lia. }
  specialize (H st). lia.
Qed.

(** X2.  Of the history the scorer uses the last three messages only, and
    the history adds between 0 and 6 points to the score of the message
    alone (two for each of these messages that is a hesitating user
    message, when the message presses or threatens). *)
Theorem detect_scam_history_window :
  forall message hist,
    detect_scam message (last_n 3 hist) = detect_scam message hist /\
    snd (detect_scam message [])
    <= snd (detect_scam message hist)
    <= snd (detect_scam message []) + 6.
Proof.
  intros message hist.
  destruct (detect_scam_split message) as [st H].
  rewrite !H. cbn [snd]. rewrite escalation_last_three.
  split; [reflexivity|].
  pose proof (escalation_bounds (lower message) hist st).
  cbn [escalation]. lia.
Qed.

(** ** The scam types *)

Lemma any_in_app ws1 ws2 s : any_in (ws1 ++ ws2) s = any_in ws1 s || any_in ws2 s.
Proof. unfold any_in. apply existsb_app. Qed.

(** X3.  The classification never comes back empty and never repeats a
    type; it is ["unknown scam"] exactly when none of the keywords of the
    four families occurs in the lower-cased message. *)
Theorem get_scam_details_cases :
  forall message,
    get_scam_details message <> [] /\
    NoDup (get_scam_details message) /\
    (In "unknown scam" (get_scam_details message)
     <-> get_scam_details message = ["unknown scam"]) /\
    (get_scam_details message = ["unknown scam"]
     <-> any_in (["otp"; "password"; "pin"; "cvv"]
                 ++ ["click"; "download"; "link"]
                 ++ ["bank"; "account"; "upi"; "payment"]
                 ++ ["verify"; "confirm"; "update"])
           (lower message) = false).
Proof.
  intros message. unfold get_scam_details. rewrite !any_in_app.
  destruct (any_in ["otp"; "password"; "pin"; "cvv"] (lower message));
    destruct (any_in ["click"; "download"; "link"] (lower message));
    destruct (any_in ["bank"; "account"; "upi"; "payment"] (lower message));
    destruct (any_in ["verify"; "confirm"; "update"] (lower message));
    cbn [app orb];
    (split; [discriminate|]);
    (split; [apply (bool_decide_unpack _); vm_compute; exact I|]);
    split; split; intros H; try reflexivity; try discriminate H;
    try (cbn in H; intuition discriminate); try (left; reflexivity).
Qed.

(** ** The extractor: what every category holds *)


Lemma lower_char_space c : is_space (lower_char c) = is_space c.
Proof.
  destruct c as [b0 b1 b2 b3 b4 b5 b6 b7].
  destruct b0, b1, b2, b3, b4, b5, b6, b7; vm_compute; reflexivity.
Qed.


Lemma lower_app (a b : string) :
  lower (a ++ b)%string = (lower a ++ lower b)%string.
Proof.
  induction a as [|c a IH]; rewrite ?string_app_nil, ?string_app_cons;
    cbn [lower]; rewrite ?string_app_cons, ?IH; reflexivity.
Qed.










Lemma extend_dom key xs (intel : gmap string (list string)) :
  dom (extend key xs intel) = dom intel.
Proof. unfold extend. apply dom_alter_L. Qed.

Lemma extract_context_dom conv : forall intel : gmap string (list string),
  dom (fold_left extract_context conv intel) = dom intel.
Proof.
  induction conv as [|m conv IH]; intros intel; cbn [fold_left]; [reflexivity|].
  rewrite IH. unfold extract_context. rewrite !extend_dom. reflexivity.
Qed.

Lemma extract_dom t conv :
  dom (extract_intelligence t conv) = list_to_set CATEGORIES.
Proof.
  unfold extract_intelligence, clean_intelligence.
  rewrite dom_fmap_L, extract_context_dom, !extend_dom.
  unfold empty_intelligence. rewrite dom_list_to_map_L.
  apply set_eq. intros x. rewrite !elem_of_list_to_set.
  unfold CATEGORIES. cbn [fmap list_fmap fst].
  rewrite !elem_of_cons, !elem_of_nil. tauto.
Qed.

(** X4.  Whatever the text and the conversation, the result has exactly
    the eight categories: each of them is present, possibly empty, and no
    other key is. *)
Theorem extract_intelligence_categories :
  forall t conv key,
    dom (extract_intelligence t conv) = list_to_set CATEGORIES /\
    (is_Some (extract_intelligence t conv !! key) <-> In key CATEGORIES).
Proof.
  intros t conv key. split; [apply extract_dom|].
  rewrite <- elem_of_dom, extract_dom, elem_of_list_to_set, list_elem_of_In.
  reflexivity.
Qed.


(** ** The extractor, category by category *)

Lemma extract_context_lookup (intel : gmap string (list string)) msg key :
  extract_context intel msg !! key
  = (fun l => l ++ message_matches key msg) <$> intel !! key.
Proof.
  unfold extract_context, extend, message_matches.
  destruct (String.eqb_spec key "upiIds") as [->|H1].
  { rewrite !(lookup_alter_ne _ _ _ "upiIds") by discriminate.
    apply lookup_alter_eq. }
  destruct (String.eqb_spec key "phishingLinks") as [->|H2].
  { rewrite !(lookup_alter_ne _ _ _ "phishingLinks") by discriminate.
    rewrite lookup_alter_eq.
    rewrite !(lookup_alter_ne _ _ _ "phishingLinks") by discriminate.
    reflexivity. }
  destruct (String.eqb_spec key "phoneNumbers") as [->|H3].
  { rewrite !(lookup_alter_ne _ _ _ "phoneNumbers") by discriminate.
    rewrite lookup_alter_eq.
    rewrite !(lookup_alter_ne _ _ _ "phoneNumbers") by discriminate.
    reflexivity. }
  destruct (String.eqb_spec key "emailAddresses") as [->|H4].
  { rewrite lookup_alter_eq.
    rewrite !(lookup_alter_ne _ _ _ "emailAddresses") by discriminate.
    reflexivity. }
  rewrite !lookup_alter_ne by congruence.
  destruct (intel !! key) as [l|]; cbn; [rewrite app_nil_r|]; reflexivity.
Qed.

Lemma extract_fold_lookup conv : forall (intel : gmap string (list string)) key,
  fold_left extract_context conv intel !! key
  = (fun l => l ++ conversation_matches key conv) <$> intel !! key.
Proof.
  induction conv as [|m conv IH]; intros intel key; cbn [fold_left].
  - unfold conversation_matches. cbn.
    destruct (intel !! key) as [l|]; cbn; [rewrite app_nil_r|]; reflexivity.
  - rewrite IH, extract_context_lookup. unfold conversation_matches.
    cbn [map concat].
    destruct (intel !! key) as [l|]; cbn; [rewrite app_assoc|]; reflexivity.
Qed.

(** A category of the result: the matches of the text, then those of
    the conversation, cleaned. *)
Lemma extract_lookup t conv key :
  In key CATEGORIES ->
  extract_intelligence t conv !! key
  = Some (clean_values (text_matches key t ++ conversation_matches key conv)).
Proof.
  intros Hk. unfold extract_intelligence, clean_intelligence.
  rewrite lookup_fmap, extract_fold_lookup. unfold extend.
  cbn [In CATEGORIES] in Hk.
  repeat match type of Hk with
         | _ \/ _ => destruct Hk as [Hk | Hk]
         end; try contradiction; subst key;
    repeat match goal with
           | |- context [alter ?f ?i ?m !! ?j] =>
               first [ constr_eq i j; rewrite (lookup_alter_eq f m i)
                     | rewrite (lookup_alter_ne f m i j) by discriminate ]
           end;
    match goal with
    | |- context [empty_intelligence !! ?k] =>
        change (empty_intelligence !! k) with (Some (@nil string))
    end;
    cbn [fmap option_fmap option_map app]; unfold text_matches;
    cbn [String.eqb Ascii.eqb Bool.eqb]; reflexivity.
Qed.

Lemma get_extract t conv key :
  In key CATEGORIES ->
  Extractor.get key (extract_intelligence t conv)
  = clean_values (text_matches key t ++ conversation_matches key conv).
Proof. intros Hk. unfold Extractor.get. rewrite (extract_lookup t conv key Hk). reflexivity. Qed.

Lemma conversation_matches_none key conv :
  (forall msg, message_matches key msg = []) ->
  conversation_matches key conv = [].
Proof.
  intros H. unfold conversation_matches.
  induction conv as [|m conv IH]; cbn [map concat]; [reflexivity|].
  rewrite H, IH. reflexivity.
Qed.






(** ** The extractor reports what occurs in its input *)

Lemma substring_refl s : substring s s.
Proof.
  exists EmptyString, EmptyString. rewrite string_app_nil.
  induction s as [|c s IH]; [reflexivity|].
  rewrite string_app_cons, <- IH. reflexivity.
Qed.















Lemma vocabulary_is_clean :
  forallb (fun kw => nonempty kw && String.eqb (strip (lower kw)) kw)
    SUSPICIOUS_KEYWORDS = true.
Proof. vm_compute. reflexivity. Qed.

(** X9.  A word is among the suspicious keywords of the result exactly
    when it is a word of the vocabulary that occurs in the lower-cased
    current text. *)
Theorem extract_intelligence_keywords :
  forall t conv kw,
    In kw (Extractor.get "suspiciousKeywords" (extract_intelligence t conv))
    <-> In kw SUSPICIOUS_KEYWORDS /\ contains kw (lower t) = true.
Proof.
  intros t conv kw.
  rewrite get_extract by (cbn; tauto).
  rewrite conversation_matches_none
    by (intros msg; unfold message_matches;
        cbn [String.eqb Ascii.eqb Bool.eqb]; reflexivity).
  rewrite app_nil_r, In_clean_values.
  change (text_matches "suspiciousKeywords" t)
    with (List.filter (fun kw => contains kw (lower t)) SUSPICIOUS_KEYWORDS).
  pose proof vocabulary_is_clean as Hv. rewrite forallb_forall in Hv.
  split.
  - intros [_ [v [Hin [_ Hs]]]]. apply filter_In in Hin as [Hin Hc].
    specialize (Hv v Hin). apply andb_true_iff in Hv as [_ Hv].
    apply String.eqb_eq in Hv. rewrite Hv in Hs. subst v. split; assumption.
  - intros [Hin Hc]. specialize (Hv kw Hin).
    apply andb_true_iff in Hv as [Hne Hv]. apply String.eqb_eq in Hv.
    split; [exact Hne|]. exists kw. split; [|split; assumption].
    apply filter_In. split; assumption.
Qed.

(** ** Account numbers by length *)

Lemma digit_val_range c : is_digit c = true -> 0 <= digit_val c <= 9.
Proof.
  destruct c as [b0 b1 b2 b3 b4 b5 b6 b7].
  destruct b0, b1, b2, b3, b4, b5, b6, b7; intros H;
    first [discriminate H | vm_compute; split; discriminate].
Qed.

Lemma digit_val_positive c :
  is_digit c = true -> Ascii.eqb c "0" = false -> 1 <= digit_val c.
Proof.
  destruct c as [b0 b1 b2 b3 b4 b5 b6 b7].
  destruct b0, b1, b2, b3, b4, b5, b6, b7; intros H H0;
    first [discriminate H | discriminate H0 | vm_compute; discriminate].
Qed.

Lemma digit_of_val c :
  is_digit c = true -> c = ascii_of_nat (48 + Z.to_nat (digit_val c)).
Proof.
  destruct c as [b0 b1 b2 b3 b4 b5 b6 b7].
  destruct b0, b1, b2, b3, b4, b5, b6, b7; intros H;
    first [discriminate H | vm_compute; reflexivity].
Qed.

Lemma fold_digits l : forall acc,
  fold_left (fun a c => 10 * a + digit_val c) l acc
  = acc * 10 ^ Z.of_nat (length l)
    + fold_left (fun a c => 10 * a + digit_val c) l 0.
Proof.
  induction l as [|c l IH]; intros acc; cbn [fold_left length].
  - change (10 ^ Z.of_nat 0) with 1. lia.
  - rewrite (IH (10 * acc + digit_val c)), (IH (10 * 0 + digit_val c)).
    rewrite Nat2Z.inj_succ, Z.pow_succ_r by lia. ring.
Qed.

Lemma list_ascii_length s :
  length (list_ascii_of_string s) = String.length s.
Proof. induction s as [|c s IH]; cbn; [reflexivity | rewrite IH; reflexivity]. Qed.

Lemma int_of_digits_cons c t :
  int_of_digits (String c t)
  = digit_val c * 10 ^ Z.of_nat (String.length t) + int_of_digits t.
Proof.
  unfold int_of_digits. cbn [list_ascii_of_string fold_left].
  rewrite fold_digits, list_ascii_length. ring.
Qed.

(** The value of a run of digits is below the power of ten of its
    length. *)
Lemma int_of_digits_bounds s :
  all_digits s = true ->
  0 <= int_of_digits s < 10 ^ Z.of_nat (String.length s).
Proof.
  induction s as [|c s IH]; intros H.
  - vm_compute. split; [discriminate | reflexivity].
  - cbn [all_digits] in H. apply andb_true_iff in H as [Hc Hs].
    rewrite int_of_digits_cons. cbn [String.length].
    rewrite Nat2Z.inj_succ, Z.pow_succ_r by lia.
    pose proof (digit_val_range c Hc). specialize (IH Hs).
    assert (0 < 10 ^ Z.of_nat (String.length s)) by (apply Z.pow_pos_nonneg; lia).
    nia.
Qed.

Lemma int_of_digits_leading c t :
  all_digits (String c t) = true -> Ascii.eqb c "0" = false ->
  10 ^ Z.of_nat (String.length t) <= int_of_digits (String c t).
Proof.
  intros H H0. cbn [all_digits] in H. apply andb_true_iff in H as [Hc Ht].
  rewrite int_of_digits_cons.
  pose proof (digit_val_positive c Hc H0).
  pose proof (int_of_digits_bounds t Ht).
  assert (0 < 10 ^ Z.of_nat (String.length t)) by (apply Z.pow_pos_nonneg; lia).
  nia.
Qed.

Lemma ten_digits_billion tok :
  all_digits tok = true -> String.length tok = 10%nat ->
  int_of_digits tok = 1000000000 -> tok = "1000000000".
Proof.
  intros Hd Hl Hv.
  do 10 (destruct tok as [|? tok]; [discriminate Hl|]).
  destruct tok; [|discriminate Hl].
  cbn [all_digits] in Hd.
  repeat match type of Hd with
         | _ && _ = true => apply andb_true_iff in Hd as [? Hd]
         end.
  rewrite !int_of_digits_cons in Hv. cbn [String.length] in Hv.
  change (int_of_digits EmptyString) with 0 in Hv.
  repeat match goal with
         | H : is_digit ?c = true |- _ =>
             pose proof (digit_val_range c H);
             rewrite (digit_of_val c H); clear H
         end.
  repeat match type of Hv with
         | context [10 ^ Z.of_nat ?n] =>
             let v := eval vm_compute in (10 ^ Z.of_nat n) in
             change (10 ^ Z.of_nat n) with v in Hv
         end.
  repeat match goal with
         | |- context [digit_val ?c] =>
             let d := fresh "d" in
             remember (digit_val c) as d
         end.
  assert (d = 1 /\ d0 = 0 /\ d1 = 0 /\ d2 = 0 /\ d3 = 0 /\ d4 = 0 /\ d5 = 0
          /\ d6 = 0 /\ d7 = 0 /\ d8 = 0) as (-> & -> & -> & -> & -> & -> & -> & -> & -> & ->)
    by lia.
  reflexivity.
Qed.

(** A digit token is reported exactly when the filter of the accounts
    accepts it. *)
Lemma account_reported pre tok post conv :
  digit_token pre tok post ->
  (9 <= String.length tok <= 18)%nat ->
  In tok (bankAccounts (pre ++ tok ++ post)%string conv)
  <-> valid_account tok = true.
Proof.
  intros [Hd [Hp Hq]] Hlen.
  rewrite bankAccounts_eq, In_clean_values.
  assert (Hne : nonempty tok = true)
    by (destruct tok; [cbn in Hlen; lia | reflexivity]).
  split.
  - intros [_ [v [Hin [_ Hv]]]]. apply filter_In in Hin as [Hin Hvalid].
    unfold findall in Hin. apply bank_findall_digits in Hin.
    rewrite (digits_strip v Hin) in Hv. subst v. exact Hvalid.
  - intros Hvalid. split; [exact Hne|].
    exists tok. split; [|split; [exact Hne | apply digits_strip; exact Hd]].
    apply filter_In. split; [|exact Hvalid].
    unfold findall. apply bank_findall_token; try assumption.
    rewrite string_app_length. lia.
Qed.

(** X10.  Of the digit tokens of a text, those of 9 digits and those of
    14 to 18 digits are always reported as bank accounts; one of 10 to 13
    digits that does not start with a zero is never reported, the single
    token "1000000000" apart. *)
Theorem accounts_by_length :
  forall pre tok post conv,
    digit_token pre tok post ->
    (String.length tok = 9%nat \/ (14 <= String.length tok <= 18)%nat ->
     In tok (bankAccounts (pre ++ tok ++ post)%string conv)) /\
    ((10 <= String.length tok <= 13)%nat ->
     no_leading_zero tok = true -> tok <> "1000000000" ->
     ~ In tok (bankAccounts (pre ++ tok ++ post)%string conv)).
Proof.
  intros pre tok post conv Ht. pose proof Ht as [Hd _]. split.
  - intros Hlen.
    apply account_reported; [exact Ht | lia |].
    apply valid_account_spec; [exact Hd | lia |].
    intros [Hv Hl]. pose proof (int_of_digits_bounds tok Hd) as Hb.
    destruct Hlen as [Hlen|Hlen]; [|lia].
    rewrite Hlen in Hb. change (10 ^ Z.of_nat 9) with 1000000000 in Hb. lia.
  - intros Hlen Hz Hne Hin.
    apply account_reported in Hin; [|exact Ht | lia].
    apply valid_account_spec in Hin; [|exact Hd | lia].
    apply Hin. split; [|lia].
    destruct tok as [|c t]; [discriminate Hz|].
    cbn [no_leading_zero] in Hz. apply negb_true_iff in Hz.
    pose proof (int_of_digits_leading c t Hd Hz) as Hlow.
    cbn [String.length] in Hlen.
    assert (Hpow : 10 ^ 9 <= 10 ^ Z.of_nat (String.length t))
      by (apply Z.pow_le_mono_r; lia).
    change (10 ^ 9) with 1000000000 in Hpow.
    destruct (Z.eq_dec (int_of_digits (String c t)) 1000000000) as [He|He]; [|lia].
    exfalso. apply Hne. apply ten_digits_billion; [exact Hd | | exact He].
    cbn [String.length].
    destruct (Nat.eq_dec (String.length t) 9%nat) as [->|Hn]; [reflexivity|].
    assert (Hpow' : 10 ^ 10 <= 10 ^ Z.of_nat (String.length t))
      by (apply Z.pow_le_mono_r; lia).
    change (10 ^ 10) with 10000000000 in Hpow'. lia.
Qed.

(** The account of the extractor's own self-test, "account 123456789012",
    is one of the tokens that are never reported. *)
Lemma accounts_by_length_witness :
  digit_token "account " "123456789012" EmptyString /\
  ~ In "123456789012" (bankAccounts "account 123456789012" []).
Proof.
  assert (Ht : digit_token "account " "123456789012" EmptyString)
    by (unfold digit_token; repeat split; reflexivity).
  split; [exact Ht|].
  apply (proj2 (accounts_by_length "account " "123456789012" EmptyString [] Ht)).
  - simpl. lia.
  - reflexivity.
  - discriminate.
Defined.

(** ** The replies *)




(** The reply repeats one of the recent replies exactly when every
    template of the list is among them. *)
Lemma select_repeats templates recent reply :
  select templates recent = Some reply ->
  mem reply recent = forallb (fun t => mem t recent) templates.
Proof.
  unfold select.
  destruct (List.find _ templates) as [t|] eqn:E.
  - intros H. injection H as <-. apply find_some in E as [Hin Hm].
    apply negb_true_iff in Hm. rewrite Hm. symmetry.
    apply not_true_iff_false. intros Hall. rewrite forallb_forall in Hall.
    rewrite (Hall t Hin) in Hm. discriminate Hm.
  - intros H.
    assert (Hall : forallb (fun t => mem t recent) templates = true).
    { apply forallb_forall. intros t Ht.
      pose proof (find_none _ _ E t Ht) as Hn. apply negb_false_iff in Hn. exact Hn. }
    rewrite Hall. destruct templates as [|t ts]; [discriminate H|].
    injection H as <-. cbn [forallb] in Hall.
    apply andb_true_iff in Hall as [Ht _]. exact Ht.
Qed.

Lemma mem_In x l : mem x l = true <-> In x l.
Proof.
  unfold mem. rewrite existsb_exists. split.
  - intros [y [Hy He]]. apply String.eqb_eq in He. subst y. exact Hy.
  - intros H. exists x. split; [exact H | apply String.eqb_refl].
Qed.

(** Five different templates do not fit into a window of three. *)
Lemma default_never_exhausted recent :
  forallb (fun t => mem t (last_n 3 recent)) (templates_of "default") = false.
Proof.
  apply not_true_iff_false. intros Hall. rewrite forallb_forall in Hall.
  assert (Hincl : incl (templates_of "default") (last_n 3 recent)).
  { intros t Ht. apply mem_In, Hall. exact Ht. }
  assert (Hnd : List.NoDup (templates_of "default")).
  { apply NoDup_ListNoDup. apply (bool_decide_unpack _). vm_compute. exact I. }
  pose proof (List.NoDup_incl_length Hnd Hincl) as Hlen.
  rewrite last_n_length in Hlen.
  change (length (templates_of "default")) with 5%nat in Hlen. lia.
Qed.


(** X12.  The Strategist repeats one of the last three own replies
    exactly when all templates of the category are among them; for a
    message without a tactic marker (five templates) it never does. *)
Theorem get_agent_reply_repetition :
  forall current_message conversation_history previous_replies,
    exists reply,
      get_agent_reply current_message conversation_history previous_replies
      = Ok reply /\
      mem reply (last_n 3 previous_replies)
      = forallb (fun t => mem t (last_n 3 previous_replies))
          (templates_of (category_of current_message)) /\
      String.eqb (category_of current_message) "default"
      && mem reply (last_n 3 previous_replies) = false.
Proof.
  intros m hist prev.
  destruct (get_agent_reply_spec m hist prev) as [r [Hs Hr]].
  exists r. split; [exact Hr|].
  unfold selectReply in Hs. rewrite window_last_n in Hs.
  pose proof (select_repeats _ _ _ Hs) as Hrep.
  split; [exact Hrep|].
  destruct (String.eqb_spec (category_of m) "default") as [E|_]; [|reflexivity].
  cbn [andb]. rewrite Hrep, E. apply default_never_exhausted.
Qed.

(** ** The final report *)

Lemma notes_start conversation_history extracted_intelligence :
  exists tail,
    generate_agent_notes conversation_history extracted_intelligence
    = ("Scammer employed: " ++ tail)%string.
Proof.
  unfold generate_agent_notes. cbv zeta.
  repeat match goal with
         | |- context [if truthy ?l then _ else _] => destruct (truthy l)
         end;
    rewrite ?string_app_assoc; eexists; reflexivity.
Qed.

Lemma prefix_refl_app w tail : String.prefix w (w ++ tail)%string = true.
Proof.
  induction w as [|c w IH]; [destruct tail; reflexivity|].
  rewrite string_app_cons. cbn [String.prefix].
  destruct (ascii_dec c c) as [_|Hn]; [exact IH | contradiction].
Qed.

Lemma build_payload_notes session_id intel total tail detected :
  agentNotes
    (build_payload session_id intel total
       ("Scammer employed: " ++ tail)%string detected)
  = ("Scammer employed: " ++ tail)%string.
Proof. reflexivity. Qed.

(** X13.  Every report handed to the dispatcher names the session of the
    request, says that a scam was detected, counts all messages of the
    session (at least the cap), carries the session's entries of the five
    report categories after this turn's merge, and has notes that start
    with "Scammer employed: ". *)
Theorem report_content :
  forall cfg session payload net,
    Forall (fun report =>
              GuviCallback.sessionId report = req_sessionId payload /\
              GuviCallback.scamDetected report = true /\
              totalMessagesExchanged report
              = Z.of_nat (length (messages session)) + 1 /\
              MAX_MESSAGES_PER_SESSION cfg <= totalMessagesExchanged report /\
              GuviCallback.extractedIntelligence report
              = map (fun key =>
                       (key,
                        Extractor.get key
                          (intelligence (session_after cfg session payload net))))
                  REPORT_CATEGORIES /\
              String.prefix "Scammer employed: " (agentNotes report) = true)
      (reports_of cfg session payload net).
Proof.
  intros cfg session payload net.
  turn_cases cfg session payload net;
    first [ apply Forall_nil_2 | apply Forall_cons_2; [|apply Forall_nil_2] ];
    (repeat split; [apply Z.leb_le; assumption|]);
    match goal with
    | |- context [generate_agent_notes ?h ?i] =>
        destruct (notes_start h i) as [tail ->]
    end;
    rewrite build_payload_notes; apply prefix_refl_app.
Qed.

(** ** The session as the turns leave it *)

Lemma turn_times cfg session payload net :
  created_at (session_after cfg session payload net) = created_at session /\
  last_activity (session_after cfg session payload net) = last_activity session.
Proof. turn_cases cfg session payload net; split; reflexivity. Qed.

Lemma turn_reports_eq cfg session payload net :
  reports_of cfg session payload net
  = if dispatches cfg session payload
    then [build_payload (req_sessionId payload)
            (merge_intelligence (intelligence session)
               (extract_intelligence (text (message payload))
                  (conversationHistory payload ++ [message payload])))
            (Z.of_nat (length (messages session)) + 1)
            (generate_agent_notes
               (conversationHistory payload ++ [message payload])
               (merge_intelligence (intelligence session)
                  (extract_intelligence (text (message payload))
                     (conversationHistory payload ++ [message payload]))))
            true]
    else [].
Proof. turn_cases cfg session payload net; reflexivity. Qed.



Lemma consistent_init now : consistent (initialize_session now).
Proof.
  unfold consistent. cbn. repeat split; auto.
Qed.

Lemma consistent_step cfg session payload net :
  consistent session -> consistent (session_after cfg session payload net).
Proof.
  intros (Hs & Hd & Hf & Hl). unfold consistent.
  rewrite turn_scam_detected, turn_scam_score, turn_detection_details,
    turn_agent_replies, turn_intelligence, turn_concluded, turn_messages.
  rewrite verdict_threshold in *. unfold dispatches, THRESHOLD in *.
  rewrite verdict_threshold. unfold THRESHOLD.
  rewrite length_app. cbn [length].
  destruct (Z.leb_spec 4 (score_of payload)) as [Hv|Hv];
    destruct (scam_detected session) eqn:Esd;
    symmetry in Hs; cbn [orb andb];
    first [ apply Z.leb_le in Hs | apply Z.leb_gt in Hs ];
    (split; [symmetry; first [apply Z.leb_le | apply Z.leb_gt]; lia|]).
  - split; [exact Hd|]. split; [discriminate|]. rewrite length_app. cbn. lia.
  - split; [split; discriminate|]. split; [discriminate|].
    rewrite length_app. cbn. lia.
  - split; [exact Hd|]. split; [discriminate|]. lia.
  - split; [exact Hd|]. split; [|lia].
    intros _. destruct (Hf eq_refl) as (H1 & H2 & H3). rewrite H3. auto.
Qed.

Lemma consistent_run cfg inputs : forall session,
  consistent session -> consistent (fst (run cfg session inputs)).
Proof.
  induction inputs as [|[payload net] inputs IH]; intros session H; [exact H|].
  rewrite run_cons. cbn [fst]. apply IH, consistent_step, H.
Qed.

(** X15.  However a session is used, its fields hang together:
    [scam_detected] holds exactly when the score ceiling has reached 4,
    the detection details are there exactly when it holds, a session that
    is not detected has no reply, no intelligence and is not concluded,
    and there are never more replies than messages. *)
Theorem session_fields_consistent :
  forall cfg now inputs,
    consistent (fst (run cfg (initialize_session now) inputs)).
Proof. intros cfg now inputs. apply consistent_run, consistent_init. Qed.

(** ** The accumulated intelligence *)





(** ** Dispatching over a whole session *)

Lemma concluded_run_silent cfg inputs : forall session,
  engagement_concluded session = true ->
  Forall (fun turn => snd turn = []) (snd (run cfg session inputs)).
Proof.
  induction inputs as [|[payload net] inputs IH]; intros session Hc.
  - constructor.
  - rewrite run_cons. cbn [snd].
    destruct (concluded_is_terminal cfg session payload net Hc) as [Hc' Hr].
    constructor; [exact Hr | apply IH; exact Hc'].
Qed.

(** X17.  Over any sequence of messages a session has at most one report
    accepted by the endpoint; from a concluded session no turn hands a
    report to the dispatcher any more. *)
Theorem at_most_one_accepted_report :
  forall cfg session inputs,
    (successes inputs (snd (run cfg session inputs)) <= 1)%nat /\
    (if engagement_concluded session
     then Forall (fun turn => snd turn = []) (snd (run cfg session inputs))
     else True).
Proof.
  intros cfg session inputs. split.
  - pose proof (successes_at_most_once cfg session inputs) as H.
    destruct (engagement_concluded session); lia.
  - destruct (engagement_concluded session) eqn:E; [|exact I].
    apply concluded_run_silent. exact E.
Qed.

Lemma quiet_before_cap cfg inputs : forall session,
  Forall (fun turn => snd turn = [])
    (firstn
       (Z.to_nat (MAX_MESSAGES_PER_SESSION cfg - 1
                  - Z.of_nat (length (messages session))))
       (snd (run cfg session inputs))).
Proof.
  induction inputs as [|[payload net] inputs IH]; intros session.
  - cbn [run snd]. rewrite firstn_nil. constructor.
  - rewrite run_cons. cbn [snd].
    destruct (Z.to_nat (MAX_MESSAGES_PER_SESSION cfg - 1
                        - Z.of_nat (length (messages session)))) as [|n] eqn:E;
      [constructor|].
    cbn [firstn]. constructor.
    + cbn [snd]. rewrite turn_reports_eq. unfold dispatches, next_count.
      destruct (Z.leb_spec (MAX_MESSAGES_PER_SESSION cfg)
                  (Z.of_nat (length (messages session)) + 1)); [lia|].
      rewrite andb_false_r. reflexivity.
    + specialize (IH (session_after cfg session payload net)).
      rewrite turn_messages, length_app in IH. cbn [length] in IH.
      replace n with (Z.to_nat (MAX_MESSAGES_PER_SESSION cfg - 1
                                - Z.of_nat (length (messages session) + 1)))
        by lia.
      exact IH.
Qed.

Lemma one_report_per_turn cfg inputs : forall session,
  Forall (fun turn => (length (snd turn) <= 1)%nat)
    (snd (run cfg session inputs)).
Proof.
  induction inputs as [|[payload net] inputs IH]; intros session.
  - constructor.
  - rewrite run_cons. cbn [snd]. constructor; [|apply IH].
    cbn [snd]. rewrite turn_reports.
    destruct (dispatches cfg session payload); lia.
Qed.

(** X18.  A new session hands no report to the dispatcher during its
    first [MAX_MESSAGES_PER_SESSION - 1] messages, whatever they score,
    and no turn ever hands over more than one. *)
Theorem no_report_before_the_cap :
  forall cfg now inputs,
    let trace := snd (run cfg (initialize_session now) inputs) in
    Forall (fun turn => snd turn = [])
      (firstn (Z.to_nat (MAX_MESSAGES_PER_SESSION cfg - 1)) trace) /\
    Forall (fun turn => (length (snd turn) <= 1)%nat) trace.
Proof.
  intros cfg now inputs trace. subst trace. split.
  - pose proof (quiet_before_cap cfg inputs (initialize_session now)) as H.
    cbn [messages initialize_session length] in H.
    replace (MAX_MESSAGES_PER_SESSION cfg - 1 - Z.of_nat 0)
      with (MAX_MESSAGES_PER_SESSION cfg - 1) in H by lia.
    exact H.
  - apply one_report_per_turn.
Qed.

(** ** Authentication and the session store *)

Lemma authenticate_accepts cfg x_api_key :
  authenticate_request cfg x_api_key = None
  <-> x_api_key = Some (API_KEY cfg) /\ API_KEY cfg <> EmptyString.
Proof.
  unfold authenticate_request. split.
  - destruct x_api_key as [[|c key]|]; try discriminate.
    destruct (String.eqb_spec (String c key) (API_KEY cfg)) as [E|E];
      [|discriminate].
    intros _. rewrite <- E. split; [reflexivity | discriminate].
  - intros [-> Hne]. destruct (API_KEY cfg) as [|c key] eqn:E;
      [contradiction|].
    rewrite String.eqb_refl. reflexivity.
Qed.

(** X19.  A request is let in exactly when it carries the configured key
    and that key is not empty.  Otherwise the answer is 401 for a missing
    or empty key and 403 for any other, the same on both authenticated
    endpoints, and the session store is left as it was with no report
    handed over. *)
Theorem authentication_gate :
  forall cfg store now x_api_key payload net,
    (authenticate_request cfg x_api_key = None
     <-> x_api_key = Some (API_KEY cfg) /\ API_KEY cfg <> EmptyString) /\
    match authenticate_request cfg x_api_key with
    | Some status_code =>
        (status_code = if bool_decide (x_api_key = None
                                       \/ x_api_key = Some EmptyString)
                       then 401 else 403) /\
        analyze_message cfg store now x_api_key payload net
        = (store, HTTPException status_code, []) /\
        Service.get_session_info cfg store (req_sessionId payload) x_api_key
        = inl status_code
    | None => True
    end.
Proof.
  intros cfg store now x_api_key payload net.
  split; [apply authenticate_accepts|].
  unfold analyze_message, Service.get_session_info.
  destruct (authenticate_request cfg x_api_key) as [status_code|] eqn:E;
    [|exact I].
  repeat split.
  unfold authenticate_request in E.
  destruct x_api_key as [[|c key]|].
  - rewrite bool_decide_true by (right; reflexivity). congruence.
  - rewrite bool_decide_false by (intros [H|H]; discriminate H).
    destruct (String.eqb (String c key) (API_KEY cfg)); congruence.
  - rewrite bool_decide_true by (left; reflexivity). congruence.
Qed.

Lemma cleanup_lookup cfg now store session_id :
  cleanup_old_sessions cfg now store !! session_id
  = match store !! session_id with
    | Some session => if expired cfg now session then None else Some session
    | None => None
    end.
Proof.
  unfold cleanup_old_sessions, expired. cbv zeta.
  destruct (store !! session_id) as [session|] eqn:E.
  - destruct (Z.ltb_spec (SESSION_TIMEOUT_MINUTES cfg * 60)
                (now - last_activity session)) as [H|H].
    + apply map_lookup_filter_None. right. intros s Hs.
      rewrite E in Hs. injection Hs as <-. cbn [snd]. intros Hn.
      apply Hn, H.
    + apply map_lookup_filter_Some. split; [exact E|]. cbn [snd]. lia.
  - apply map_lookup_filter_None. left. exact E.
Qed.

Lemma analyze_message_authorized cfg store now x_api_key payload net :
  authenticate_request cfg x_api_key = None ->
  analyze_message cfg store now x_api_key payload net
  = (<[req_sessionId payload :=
         session_after cfg
           (starting_session cfg store now (req_sessionId payload))
           payload net]>
       (<[req_sessionId payload :=
            starting_session cfg store now (req_sessionId payload)]>
          (cleanup_old_sessions cfg now store)),
     response_of cfg
       (starting_session cfg store now (req_sessionId payload)) payload net,
     reports_of cfg
       (starting_session cfg store now (req_sessionId payload)) payload net).
Proof.
  intros Hk. unfold analyze_message. rewrite Hk. cbv zeta.
  unfold get_or_create_session, starting_session,
    session_after, response_of, reports_of.
  rewrite cleanup_lookup.
  destruct (store !! req_sessionId payload) as [session|];
    [destruct (expired cfg now session)|]; cbv zeta;
    match goal with
    | |- context [process ?c ?s ?p ?n] =>
        destruct (process c s p n) as [[s' response] reports]
    end; reflexivity.
Qed.

(** X20.  An authorised request works on the stored session of its
    identifier when there is one and it has not been idle for longer than
    the timeout, with [last_activity] set to the time of the request, and
    on a new session otherwise; the outcome of that turn is what is
    answered and what is stored.  Of the other sessions exactly those
    idle for longer than the timeout are removed, and the rest are left
    untouched. *)
Theorem analyze_message_on_the_store :
  forall cfg store now x_api_key payload net,
    authenticate_request cfg x_api_key = None ->
    let start := starting_session cfg store now (req_sessionId payload) in
    let result := analyze_message cfg store now x_api_key payload net in
    fst (fst result) !! req_sessionId payload
    = Some (session_after cfg start payload net) /\
    snd (fst result) = response_of cfg start payload net /\
    snd result = reports_of cfg start payload net /\
    last_activity start = now /\
    (forall other,
        other <> req_sessionId payload ->
        fst (fst result) !! other
        = match store !! other with
          | Some session =>
              if expired cfg now session then None else Some session
          | None => None
          end).
Proof.
  intros cfg store now x_api_key payload net Hk start result.
  subst result. rewrite (analyze_message_authorized _ _ _ _ _ _ Hk).
  fold start. cbn [fst snd]. repeat split.
  - apply lookup_insert_eq.
  - unfold start, starting_session.
    destruct (store !! req_sessionId payload) as [session|];
      [destruct (expired cfg now session)|]; reflexivity.
  - intros other Hne.
    rewrite !lookup_insert_ne by congruence. apply cleanup_lookup.
Qed.

Lemma analyze_message_on_the_store_witness :
  authenticate_request settings (Some (API_KEY settings)) = None /\
  fst (fst (analyze_message settings ∅ 0 (Some (API_KEY settings))
              {| req_sessionId := "s1";
                 message := Msg "scammer" "hello" 0;
                 conversationHistory := [] |} (Responded 200)))
    !! "s2" = None.
Proof.
  split; [reflexivity|].
  pose proof (analyze_message_on_the_store settings ∅ 0
                (Some (API_KEY settings))
                {| req_sessionId := "s1";
                   message := Msg "scammer" "hello" 0;
                   conversationHistory := [] |} (Responded 200) eq_refl) as H.
  cbv zeta in H. destruct H as (_ & _ & _ & _ & H).
  rewrite (H "s2") by (cbn; discriminate). reflexivity.
Defined.

(** X21.  After an authorised message the session can be read back under
    the same key: it counts one message more than the session the turn
    started from, was last active at the time of the request, and is
    flagged as a scam when that session was or this message is.
    The store then holds at least this session and at most one more than
    before. *)
Theorem session_info_after_message :
  forall cfg store now x_api_key payload net,
    authenticate_request cfg x_api_key = None ->
    let start := starting_session cfg store now (req_sessionId payload) in
    let store' :=
      fst (fst (analyze_message cfg store now x_api_key payload net)) in
    (exists info,
        Service.get_session_info cfg store' (req_sessionId payload) x_api_key
        = inr info /\
        Service.info_sessionId info = req_sessionId payload /\
        Service.messageCount info = S (length (messages start)) /\
        Service.lastActivity info = now /\
        Service.createdAt info = created_at start /\
        Service.scamDetected info
        = scam_detected start || verdict payload) /\
    (1 <= Service.health_sessions store'
     <= Service.health_sessions store + 1)%nat.
Proof.
  intros cfg store now x_api_key payload net Hk start store'.
  subst store'. rewrite (analyze_message_authorized _ _ _ _ _ _ Hk).
  fold start. cbn [fst]. split.
  - unfold Service.get_session_info. rewrite Hk, lookup_insert_eq.
    eexists. split; [reflexivity|].
    cbn [Service.info_sessionId Service.messageCount Service.lastActivity
         Service.createdAt Service.scamDetected].
    destruct (turn_times cfg start payload net) as [Hc Hl].
    rewrite turn_messages, length_app, Hc, Hl, turn_scam_detected.
    cbn [length]. repeat split; try lia.
    unfold start, starting_session.
    destruct (store !! req_sessionId payload) as [session|];
      [destruct (expired cfg now session)|]; reflexivity.
  - unfold Service.health_sessions. rewrite insert_insert_eq. split.
    + destruct (decide (size (<[req_sessionId payload :=
                                  session_after cfg start payload net]>
                                (cleanup_old_sessions cfg now store)) = 0%nat))
        as [E|E]; [|lia].
      apply map_size_empty_inv in E.
      apply (f_equal (fun m => m !! req_sessionId payload)) in E.
      rewrite lookup_insert_eq, lookup_empty in E. discriminate E.
    + pose proof (map_subseteq_size (cleanup_old_sessions cfg now store) store
                    (map_filter_subseteq _ store)) as Hs.
      destruct (cleanup_old_sessions cfg now store !! req_sessionId payload)
        as [session|] eqn:E.
      * rewrite map_size_insert_Some by (exists session; exact E). lia.
      * rewrite map_size_insert_None by exact E. lia.
Qed.

Lemma session_info_after_message_witness :
  authenticate_request settings (Some (API_KEY settings)) = None /\
  (1 <= Service.health_sessions
          (fst (fst (analyze_message settings ∅ 0 (Some (API_KEY settings))
                       {| req_sessionId := "s1";
                          message := Msg "scammer" "hello" 0;
                          conversationHistory := [] |} (Responded 200))))
   <= Service.health_sessions ∅ + 1)%nat.
Proof.
  split; [reflexivity|].
  pose proof (session_info_after_message settings ∅ 0
                (Some (API_KEY settings))
                {| req_sessionId := "s1";
                   message := Msg "scammer" "hello" 0;
                   conversationHistory := [] |} (Responded 200) eq_refl) as H.
  cbv zeta in H. exact (proj2 H).
Defined.

(** ** Enrichment *)

Lemma truthy_at_enriched key (intelligence : gmap string (list string)) :
  key <> "extracted_at" ->
  Service.truthy_at key (<["extracted_at" := Service.VNone]>
                           (Service.VList <$> intelligence))
  = truthy (Extractor.get key intelligence).
Proof.
  intros Hne. unfold Service.truthy_at, Extractor.get.
  rewrite lookup_insert_ne by congruence. rewrite lookup_fmap.
  destruct (intelligence !! key) as [[|x l]|]; reflexivity.
Qed.

(** X22.  Enrichment keeps every entry of the dictionary it is given
    under its key, sets ["extracted_at"] to [None], and grades the
    severity by the first of these that holds: a bank account or bitcoin
    address is known (critical), a phone number or e-mail address is
    known (high), neither (medium). *)
Theorem enrich_intelligence_grades :
  forall (intelligence : gmap string (list string)) key,
    let enriched := Service.enrich_intelligence intelligence in
    let known key := truthy (Extractor.get key intelligence) in
    enriched !! "extracted_at" = Some Service.VNone /\
    enriched !! "severity"
    = Some (Service.VStr
              (if known "bankAccounts" || known "bitcoinAddresses"
               then "critical"
               else if known "phoneNumbers" || known "emailAddresses"
               then "high" else "medium")) /\
    (key <> "extracted_at" -> key <> "severity" ->
     enriched !! key = Service.VList <$> intelligence !! key).
Proof.
  intros intelligence key enriched known. subst enriched known.
  unfold Service.enrich_intelligence. cbv zeta.
  rewrite !truthy_at_enriched by discriminate.
  destruct (truthy (Extractor.get "bankAccounts" intelligence)
            || truthy (Extractor.get "bitcoinAddresses" intelligence));
    [|destruct (truthy (Extractor.get "phoneNumbers" intelligence)
               || truthy (Extractor.get "emailAddresses" intelligence))];
    (split; [|split]);
    try (rewrite lookup_insert_ne by discriminate; apply lookup_insert_eq);
    try apply lookup_insert_eq;
    intros H1 H2; rewrite !lookup_insert_ne by congruence;
    apply lookup_fmap.
Qed.

(** ** What the patterns let through *)

Lemma string_app_nil_r (a : string) : (a ++ EmptyString)%string = a.
Proof.
  induction a as [|c a IH]; rewrite ?string_app_nil, ?string_app_cons;
    [reflexivity | rewrite IH; reflexivity].
Qed.

(** The matcher moved from [c] to [c'] over a string in [P]. *)
Lemma loop_shape body (P : string -> Prop) :
  (forall k c res,
      body k c = Some res ->
      exists w c', rest c = (w ++ rest c')%string /\
                   eaten c' = (eaten c + String.length w)%nat /\
                   P w /\ k c' = Some res) ->
  forall budget need k c res,
    loop body k budget need c = Some res ->
    exists ws c', rest c = (joined ws ++ rest c')%string /\
                  eaten c' = (eaten c + String.length (joined ws))%nat /\
                  (need <= length ws <= budget)%nat /\
                  Forall P ws /\ k c' = Some res.
Proof.
  intros Hbody. induction budget as [|budget IH]; intros need k c res H.
  - cbn [loop] in H. destruct need; [|discriminate H].
    exists [], c. cbn [joined fold_right length String.length].
    rewrite string_app_nil. repeat split; auto with arith.
  - cbn [loop] in H. unfold orelse in H.
    destruct (body (loop body k budget (Nat.pred need)) c) as [res'|] eqn:E.
    + injection H as ->.
      apply Hbody in E as (w & c1 & Hr & He & Hw & E).
      apply IH in E as (ws & c' & Hr' & He' & Hn & Hall & Hk).
      exists (w :: ws), c'. cbn [joined fold_right length].
      fold (joined ws).
      rewrite Hr, Hr', He', He, string_app_assoc, string_app_length.
      repeat split; [lia | lia | lia | constructor; assumption | exact Hk].
    + destruct need; [|discriminate H].
      exists [], c. cbn [joined fold_right length String.length].
      rewrite string_app_nil. repeat split; auto with arith.
Qed.

Lemma run_shape r : forall k c res,
  Regex.run r k c = Some res ->
  exists w c', rest c = (w ++ rest c')%string /\
               eaten c' = (eaten c + String.length w)%nat /\
               shape r w /\ k c' = Some res.
Proof.
  induction r as [|p| |r1 IH1 r2 IH2|r1 IH1 r2 IH2|r1 IH1 lo hi];
    intros k c res H; cbn [Regex.run] in H.
  - exists EmptyString, c. rewrite string_app_nil. cbn.
    repeat split; [lia | exact H].
  - destruct (rest c) as [|x t] eqn:E; [discriminate H|].
    destruct (p x) eqn:Hp; [|discriminate H].
    exists (String x EmptyString), (Cursor (Some x) t (S (eaten c))).
    cbn [rest eaten shape String.length].
    rewrite string_app_cons, string_app_nil.
    repeat split; [lia | exists x; auto | exact H].
  - destruct (at_boundary c); [|discriminate H].
    exists EmptyString, c. rewrite string_app_nil. cbn.
    repeat split; [lia | exact H].
  - apply IH1 in H as (w1 & c1 & Hr1 & He1 & Hs1 & H).
    apply IH2 in H as (w2 & c2 & Hr2 & He2 & Hs2 & H).
    exists (w1 ++ w2)%string, c2.
    rewrite Hr1, Hr2, He2, He1, string_app_assoc, string_app_length.
    cbn [shape]. repeat split; [lia | exists w1, w2; auto | exact H].
  - unfold orelse in H. destruct (Regex.run r1 k c) as [res'|] eqn:E.
    + injection H as ->. apply IH1 in E as (w & c' & Hr & He & Hs & Hk).
      exists w, c'. cbn [shape]. auto.
    + apply IH2 in H as (w & c' & Hr & He & Hs & Hk).
      exists w, c'. cbn [shape]. auto.
  - apply (loop_shape (Regex.run r1) (shape r1) IH1) in H
      as (ws & c' & Hr & He & Hn & Hall & Hk).
    exists (joined ws), c'. cbn [shape].
    repeat split; [exact Hr | exact He | | exact Hk].
    exists ws. repeat split; [lia | destruct hi; [lia | exact I] | exact Hall].
Qed.

Lemma match_at_shape r prev s n :
  match_at r prev s = Some n -> shape r (take n s).
Proof.
  unfold match_at.
  destruct (Regex.run r Some (Cursor prev s 0)) as [c'|] eqn:E; [|discriminate].
  intros H. injection H as <-.
  apply run_shape in E as (w & c1 & Hr & He & Hs & Hk).
  injection Hk as ->. cbn [rest eaten] in Hr, He.
  rewrite Hr, He. cbn [Nat.add]. rewrite take_app_exact. exact Hs.
Qed.

(** Every match [findall] returns is a string of the pattern. *)
Lemma findall_shape r fuel : forall prev s v,
  In v (findall_from fuel r prev s) -> shape r v.
Proof.
  induction fuel as [|fuel IH]; intros prev s v H; cbn [findall_from] in H;
    [contradiction|].
  assert (Hskip : In v match s with
                       | String c t => findall_from fuel r (Some c) t
                       | EmptyString => []
                       end -> shape r v).
  { destruct s as [|c t]; [contradiction|]. intros Hin. eapply IH. exact Hin. }
  destruct (match_at r prev s) as [[|n]|] eqn:E.
  - destruct H as [<-|H]; [|exact (Hskip H)].
    apply match_at_shape in E. destruct s; exact E.
  - destruct H as [<-|H]; [apply match_at_shape in E; exact E|].
    eapply IH. exact H.
  - exact (Hskip H).
Qed.

(** ** The form of what is reported *)

Ltac each_char c :=
  destruct c as [b0 b1 b2 b3 b4 b5 b6 b7];
  destruct b0, b1, b2, b3, b4, b5, b6, b7; vm_compute;
  try discriminate; try reflexivity.

Lemma every_app p (a b : string) :
  every p (a ++ b)%string = every p a && every p b.
Proof.
  induction a as [|c a IH]; rewrite ?string_app_nil, ?string_app_cons;
    cbn [every]; [reflexivity|].
  rewrite IH, andb_assoc. reflexivity.
Qed.

Lemma every_impl (p q : ascii -> bool) s :
  (forall c, p c = true -> q c = true) -> every p s = true -> every q s = true.
Proof.
  intros Hpq. induction s as [|c t IH]; cbn [every]; [reflexivity|].
  rewrite !andb_true_iff. intros [Hc Ht]. auto.
Qed.

Lemma every_lower (p q : ascii -> bool) s :
  (forall c, p c = true -> q (lower_char c) = true) ->
  every p s = true -> every q (lower s) = true.
Proof.
  intros Hpq. induction s as [|c t IH]; cbn [every lower]; [reflexivity|].
  rewrite !andb_true_iff. intros [Hc Ht]. auto.
Qed.

Lemma lower_fixed (p : ascii -> bool) s :
  (forall c, p c = true -> lower_char c = c) ->
  every p s = true -> lower s = s.
Proof.
  intros Hp. induction s as [|c t IH]; cbn [every lower]; [reflexivity|].
  rewrite andb_true_iff. intros [Hc Ht]. rewrite (Hp c Hc), (IH Ht).
  reflexivity.
Qed.


Lemma every_all_digits s : every is_digit s = all_digits s.
Proof. induction s as [|c t IH]; cbn [every all_digits]; congruence. Qed.

Lemma lstrip_leading s : leading (non is_space) s = true -> lstrip s = s.
Proof.
  destruct s as [|c t]; [discriminate|]. unfold leading, non. cbn [lstrip].
  destruct (is_space c); [discriminate | reflexivity].
Qed.


Lemma rstrip_fixed s : every (non is_space) s = true -> rstrip s = s.
Proof.
  induction s as [|c t IH]; cbn [every rstrip]; [reflexivity|].
  rewrite andb_true_iff. unfold non at 1. intros [Hc Ht]. rewrite (IH Ht).
  destruct t; [|reflexivity].
  destruct (is_space c); [discriminate | reflexivity].
Qed.


Lemma strip_fixed s : every (non is_space) s = true -> strip s = s.
Proof.
  intros H. unfold strip.
  assert (lstrip s = s) as ->; [|apply rstrip_fixed, H].
  destruct s as [|c t]; [reflexivity|]. apply lstrip_leading.
  cbn [every] in H. apply andb_true_iff in H as [H _]. exact H.
Qed.

Lemma joined_class p ws :
  Forall (shape (Class p)) ws ->
  every p (joined ws) = true /\ String.length (joined ws) = length ws.
Proof.
  induction 1 as [|w ws Hw Hall IH]; cbn [joined fold_right length];
    [split; reflexivity|].
  fold (joined ws). destruct Hw as (x & -> & Hx). destruct IH as [IH1 IH2].
  rewrite string_app_cons, string_app_nil. cbn [every String.length].
  rewrite Hx, IH1, IH2. split; reflexivity.
Qed.

Lemma shape_class_rep p lo hi w :
  shape (Rep (Class p) lo hi) w ->
  every p w = true /\ (lo <= String.length w)%nat /\
  match hi with Some h => (String.length w <= h)%nat | None => True end.
Proof.
  intros (ws & -> & Hlo & Hhi & Hall).
  destruct (joined_class p ws Hall) as [He Hl]. rewrite Hl. auto.
Qed.

Lemma shape_lit x w : shape (lit x) w -> w = String x EmptyString.
Proof.
  intros (c & -> & Hc). unfold is_char in Hc.
  apply Ascii.eqb_eq in Hc. subst c. reflexivity.
Qed.

Lemma shape_lits s : forall w, shape (lits s) w -> w = s.
Proof.
  induction s as [|c t IH]; intros w H; cbn [lits] in H; [exact H|].
  destruct t as [|c' t'].
  - apply shape_lit in H. exact H.
  - destruct H as (w1 & w2 & -> & H1 & H2).
    apply shape_lit in H1. apply IH in H2. subst.
    rewrite string_app_cons, string_app_nil. reflexivity.
Qed.

Lemma shape_opt r w :
  shape (opt r) w -> w = EmptyString \/ shape r w.
Proof.
  intros (ws & -> & _ & Hhi & Hall).
  destruct ws as [|w1 [|w2 ws]]; cbn [length] in Hhi; [left; reflexivity| |lia].
  right. cbn [joined fold_right]. rewrite string_app_nil_r.
  apply Forall_cons in Hall as [H _]. exact H.
Qed.

(** What an entry of a category read by pattern [r] comes from. *)
Lemma entry_source key r t conv x :
  In key CATEGORIES ->
  (forall t' v, In v (text_matches key t') -> shape r v) ->
  (forall msg v, In v (message_matches key msg) -> shape r v) ->
  In x (Extractor.get key (extract_intelligence t conv)) ->
  exists v, shape r v /\ x = strip (lower v).
Proof.
  intros Hk Ht Hm Hx. rewrite (get_extract t conv key Hk) in Hx.
  apply In_clean_values in Hx as (_ & v & Hv & _ & <-).
  exists v. split; [|reflexivity].
  apply in_app_or in Hv as [Hv|Hv]; [exact (Ht t v Hv)|].
  unfold conversation_matches in Hv.
  apply in_concat in Hv as (l & Hl & Hv).
  apply in_map_iff in Hl as (msg & <- & _). exact (Hm msg v Hv).
Qed.

Lemma nonspace_lower c : non is_space c = true -> non is_space (lower_char c) = true.
Proof. unfold non. rewrite lower_char_space. auto. Qed.

Lemma link_of_shape v : shape Extractor.URL_REGEX v -> link_shaped (strip (lower v)).
Proof.
  intros (w1 & r1 & -> & H1 & w2 & r2 & -> & H2 & w3 & w4 & -> & H3 & H4).
  apply (shape_lits "http") in H1. apply (shape_lits "://") in H3.
  apply shape_opt in H2. apply shape_class_rep in H4 as (He & Hl & _).
  subst w1 w3.
  assert (Hw2 : w2 = EmptyString \/ w2 = "s").
  { destruct H2 as [H2|H2]; [left; exact H2 | right; apply shape_lit, H2]. }
  assert (He' : every (non is_space) (lower w4) = true)
    by (apply (every_lower (non is_space)); [apply nonspace_lower | exact He]).
  assert (Hne : lower w4 <> EmptyString)
    by (destruct w4; [cbn in Hl; lia | discriminate]).
  exists w2, (lower w4).
  rewrite !lower_app.
  replace (lower w2) with w2 by (destruct Hw2 as [->| ->]; reflexivity).
  change (lower "http") with "http". change (lower "://") with "://".
  rewrite strip_fixed; [auto|].
  rewrite !every_app, He'. destruct Hw2 as [->| ->]; reflexivity.
Qed.

(** X23.  Every reported link is [http://] or [https://] followed by at
    least one character, and holds no white space. *)
Theorem phishing_links_are_links :
  forall t conv,
    Forall link_shaped
      (Extractor.get "phishingLinks" (extract_intelligence t conv)).
Proof.
  intros t conv. apply Forall_forall. intros x Hx.
  apply list_elem_of_In in Hx.
  apply (entry_source "phishingLinks" Extractor.URL_REGEX) in Hx
    as (v & Hv & ->).
  - apply link_of_shape, Hv.
  - cbn. tauto.
  - intros t' v Hv. eapply findall_shape. exact Hv.
  - intros msg v Hv. eapply findall_shape. exact Hv.
Qed.


Lemma digit_fixed c : is_digit c = true -> lower_char c = c.
Proof. each_char c. Qed.

Lemma digit_nonspace c : is_digit c = true -> non is_space c = true.
Proof. each_char c. Qed.










(** X26.  Every reported bank account is a string of 9 to 18 digits that
    the timestamp test lets through: longer than 13 digits, or a number
    of at most 1000000000. *)
Theorem bank_accounts_are_digit_strings :
  forall t conv,
    Forall (fun x =>
              all_digits x = true /\
              (9 <= String.length x <= 18)%nat /\
              ((13 < String.length x)%nat \/ int_of_digits x <= 1000000000))
      (bankAccounts t conv).
Proof.
  intros t conv. apply Forall_forall. intros x Hx.
  apply list_elem_of_In in Hx. unfold bankAccounts in Hx.
  rewrite (get_extract t conv "bankAccounts") in Hx by (cbn; tauto).
  apply In_clean_values in Hx as (_ & v & Hv & _ & <-).
  rewrite conversation_matches_none, app_nil_r in Hv by reflexivity.
  unfold text_matches in Hv. cbn [String.eqb Ascii.eqb Bool.eqb] in Hv.
  apply filter_In in Hv as [Hv Hvalid].
  apply findall_shape in Hv
    as (w0 & r0 & -> & -> & w1 & w2 & -> & H1 & ->).
  apply shape_class_rep in H1 as (Hd & Hlo & Hhi).
  rewrite string_app_nil, string_app_nil_r in *.
  rewrite (lower_fixed is_digit w1 digit_fixed Hd).
  rewrite strip_fixed by (exact (every_impl _ _ w1 digit_nonspace Hd)).
  rewrite <- every_all_digits. repeat split; [exact Hd | lia | lia |].
  unfold valid_account in Hvalid.
  apply andb_true_iff in Hvalid as [_ Hts]. apply negb_true_iff in Hts.
  unfold is_likely_timestamp in Hts.
  destruct (Nat.ltb_spec 13 (String.length w1)) as [Hl|Hl]; [left; lia|].
  right. unfold parse_int in Hts.
  rewrite <- every_all_digits, Hd in Hts.
  destruct w1 as [|c w1]; [cbn in Hlo; lia|].
  cbn [nonempty andb] in Hts. apply Z.ltb_ge in Hts. exact Hts.
Qed.











(** ** The notes of the report *)

(** The notes depend on the conversation through four tests and on the
    intelligence through three. *)
Lemma notes_by_flags conv intel :
  exists b1 b2 b3 b4 b5 b6 b7 : bool,
    b5 = truthy (Extractor.get "phishingLinks" intel) /\
    b6 = truthy (Extractor.get "bankAccounts" intel) /\
    b7 = truthy (Extractor.get "upiIds" intel) /\
    generate_agent_notes conv intel
    = (let tactics :=
         (if b1 then ["urgency pressure"] else @nil string) ++
         (if b2 then ["threat/coercion"] else @nil string) ++
         (if b3 then ["credential phishing"] else @nil string) ++
         (if b4 then ["financial exploitation"] else @nil string) ++
         (if b5 then ["malware distribution"] else @nil string) ++
         (if b6 then ["account compromise"] else @nil string) in
       let tactics :=
         match tactics with [] => ["social engineering"] | _ => tactics end in
       let notes :=
         String.append "Scammer employed: "
           (String.append (join ", " tactics) ". ") in
       let notes :=
         if b7 then String.append notes "Requested UPI ID sharing. "
         else notes in
       let notes :=
         if b6 then String.append notes "Asked for bank details. "
         else notes in
       let notes :=
         if b5 then String.append notes "Provided suspicious links. "
         else notes in
       String.append notes
         "Attempted to establish false trust and urgency throughout conversation.").
Proof.
  unfold generate_agent_notes, Extractor.get.
  do 7 eexists. split; [reflexivity|]. split; [reflexivity|].
  split; [reflexivity|]. reflexivity.
Qed.

(** X28.  The notes name "social engineering" exactly when they name none
    of the six recognised tactics.  They say that bank details were asked
    for exactly when they name account compromise, that links were
    provided exactly when they name malware distribution, and they always
    hold the closing words "throughout conversation.". *)
Theorem generate_agent_notes_tactics :
  forall conversation_history extracted_intelligence,
    let notes :=
      generate_agent_notes conversation_history extracted_intelligence in
    let names tactic := contains tactic notes in
    names "social engineering"
    = negb (names "urgency pressure" || names "threat/coercion"
            || names "credential phishing" || names "financial exploitation"
            || names "malware distribution" || names "account compromise") /\
    names "Asked for bank details. " = names "account compromise" /\
    names "Provided suspicious links. " = names "malware distribution" /\
    names "account compromise"
    = truthy (Extractor.get "bankAccounts" extracted_intelligence) /\
    names "malware distribution"
    = truthy (Extractor.get "phishingLinks" extracted_intelligence) /\
    names "Requested UPI ID sharing. "
    = truthy (Extractor.get "upiIds" extracted_intelligence) /\
    names "throughout conversation." = true.
Proof.
  intros conv intel notes names. subst notes names. cbv beta.
  destruct (notes_by_flags conv intel)
    as (b1 & b2 & b3 & b4 & b5 & b6 & b7 & H5 & H6 & H7 & ->).
  rewrite <- H5, <- H6, <- H7. clear.
  destruct b1, b2, b3, b4, b5, b6, b7; vm_compute; repeat split; reflexivity.
Qed.
